(** * Openware connector utilities: a shallow embedding and its properties

    Source: [hummingbot/connector/exchange/openware/openware_utils.py].

    Python [str] values are modelled by [string]; the text this module
    handles (ticker symbols, order ids, the separator) is ASCII, and the case
    mappings below are the ASCII ones.  Python [int] is [Z].  Exceptions are
    explicit: a computation that can raise has type [exc A]; [exc] carries
    instances of [Exception], and [Module Task] adds the signals that derive
    from [BaseException] only.  A [float] is a binary64 number, with
    rounding to nearest, ties to even. *)

From Stdlib Require Import String Ascii List ZArith Lia Bool Decimal DecimalString DecimalZ.
Import ListNotations.
Local Open Scope string_scope.

(* ===================================================================== *)
(** * Python primitives used by the module *)
(* ===================================================================== *)

Module Py.

(** Instances of [Exception], the class every handler of the module names. *)
Inductive exn : Type :=
| AttributeError
| IndexError
| TypeError
| Fault (name : string).

Inductive exc (A : Type) : Type :=
| Ret (a : A)
| Raise (e : exn).

Arguments Ret {A} a.
Arguments Raise {A} e.

Definition bind {A B : Type} (m : exc A) (k : A -> exc B) : exc B :=
  match m with
  | Ret a => k a
  | Raise e => Raise e
  end.

(** [try: body / except Exception: handler] *)
Definition try_except {A : Type} (body : exc A) (handler : exn -> exc A) : exc A :=
  match body with
  | Ret a => Ret a
  | Raise e => handler e
  end.

(** ** Characters *)

Definition is_upper (c : ascii) : bool :=
  let n := nat_of_ascii c in (65 <=? n)%nat && (n <=? 90)%nat.

Definition is_lower (c : ascii) : bool :=
  let n := nat_of_ascii c in (97 <=? n)%nat && (n <=? 122)%nat.

Definition is_alpha (c : ascii) : bool := is_upper c || is_lower c.

Definition is_digit (c : ascii) : bool :=
  let n := nat_of_ascii c in (48 <=? n)%nat && (n <=? 57)%nat.

Definition upper_char (c : ascii) : ascii :=
  if is_lower c then ascii_of_nat (nat_of_ascii c - 32) else c.

Definition lower_char (c : ascii) : ascii :=
  if is_upper c then ascii_of_nat (nat_of_ascii c + 32) else c.

(** ** Strings *)

Fixpoint map_chars (f : ascii -> ascii) (s : string) : string :=
  match s with
  | EmptyString => EmptyString
  | String c r => String (f c) (map_chars f r)
  end.

Fixpoint all_chars (p : ascii -> bool) (s : string) : bool :=
  match s with
  | EmptyString => true
  | String c r => p c && all_chars p r
  end.

Fixpoint any_char (p : ascii -> bool) (s : string) : bool :=
  match s with
  | EmptyString => false
  | String c r => p c || any_char p r
  end.

(** [s.upper()], [s.lower()] *)
Definition upper (s : string) : string := map_chars upper_char s.
Definition lower (s : string) : string := map_chars lower_char s.

(** [s.replace(old, new)] for a one-character [old]: every occurrence is
    replaced. *)
Fixpoint replace (old : ascii) (new : string) (s : string) : string :=
  match s with
  | EmptyString => EmptyString
  | String c r =>
      if Ascii.eqb c old then new ++ replace old new r
      else String c (replace old new r)
  end.

(** [s.split(sep)] for a one-character [sep]: the fields between the
    separators, in order; always at least one field. *)
Fixpoint split (sep : ascii) (s : string) : list string :=
  match s with
  | EmptyString => [EmptyString]
  | String c r =>
      if Ascii.eqb c sep then EmptyString :: split sep r
      else match split sep r with
           | [] => [String c EmptyString]
           | field :: fields => String c field :: fields
           end
  end.

(** [l[i]] for a non-negative literal index. *)
Definition list_index {A : Type} (l : list A) (i : nat) : exc A :=
  match nth_error l i with
  | Some a => Ret a
  | None => Raise IndexError
  end.

(** [s[0:n]]: the first [n] characters, fewer when [s] is shorter. *)
Fixpoint slice_to (n : nat) (s : string) : string :=
  match n, s with
  | O, _ => EmptyString
  | S _, EmptyString => EmptyString
  | S n', String c r => String c (slice_to n' r)
  end.

(** [s[-1]]: the last character; [IndexError] on the empty string. *)
Fixpoint last_char (s : string) : exc ascii :=
  match s with
  | EmptyString => Raise IndexError
  | String c EmptyString => Ret c
  | String _ r => last_char r
  end.

(** [str(n)] for an [int]: the decimal numeral, with a leading [-] when
    negative. *)
Definition str_of_int (n : Z) : string := NilZero.string_of_int (Z.to_int n).

(** [needle in s] on strings: substring test. *)
Fixpoint contains (needle s : string) : bool :=
  prefix needle s ||
  match s with
  | EmptyString => false
  | String _ r => contains needle r
  end.

(** ** [str(b)] for a [bytes] value: its [repr] *)

Definition hex_digit (n : nat) : ascii :=
  if (n <? 10)%nat then ascii_of_nat (48 + n) else ascii_of_nat (87 + n).

Definition backslash : ascii := ascii_of_nat 92.
Definition single_quote : ascii := ascii_of_nat 39.
Definition double_quote : ascii := ascii_of_nat 34.

Definition repr_byte (quote : ascii) (c : ascii) : string :=
  let n := nat_of_ascii c in
  if Ascii.eqb c quote || Ascii.eqb c backslash then String backslash (String c EmptyString)
  else if (n =? 9)%nat then String backslash "t"
  else if (n =? 10)%nat then String backslash "n"
  else if (n =? 13)%nat then String backslash "r"
  else if (n <? 32)%nat || (127 <=? n)%nat
       then String backslash (String "x"%char
              (String (hex_digit (n / 16)) (String (hex_digit (n mod 16)) EmptyString)))
  else String c EmptyString.

Fixpoint repr_body (quote : ascii) (b : string) : string :=
  match b with
  | EmptyString => EmptyString
  | String c r => repr_byte quote c ++ repr_body quote r
  end.

Definition str_of_bytes (b : string) : string :=
  let quote :=
    if any_char (Ascii.eqb single_quote) b && negb (any_char (Ascii.eqb double_quote) b)
    then double_quote else single_quote in
  String "b"%char (String quote (repr_body quote b ++ String quote EmptyString)).

End Py.

Import Py.

Declare Scope exc_scope.
Delimit Scope exc_scope with exc.
Notation "x <- m ;; k" := (bind m (fun x => k))
  (at level 61, m at next level, right associativity) : exc_scope.
Local Open Scope exc_scope.

(* ===================================================================== *)
(** * Symbol codec *)
(* ===================================================================== *)

(** A [re.Match] object: the whole match and the captured groups 1..n
    ([None] for a group that did not take part in the match). *)
Record re_match : Type := {
  whole : string;
  groups : list (option string)
}.

(** [m.group(i)] where [m] is the result of [pattern.match]: [m] is [None]
    when the pattern did not match, and then the attribute lookup fails. *)
Definition group (m : option re_match) (i : nat) : exc (option string) :=
  match m with
  | None => Raise AttributeError
  | Some mo =>
      match i with
      | O => Ret (Some (whole mo))
      | S j => list_index (groups mo) j
      end
  end.

(** [x.upper()] where [x] may be [None]. *)
Definition upper_method (x : option string) : exc string :=
  match x with
  | Some s => Ret (upper s)
  | None => Raise AttributeError
  end.

(** [a, b = x] where [x] is a pair or [None]. *)
Definition unpack_pair {A B : Type} (x : option (A * B)) : exc (A * B) :=
  match x with
  | Some p => Ret p
  | None => Raise TypeError
  end.

Section SymbolCodec.

(** [TRADING_PAIR_SPLITTER.match]: the compiled pattern comes from
    [Constants.TRADING_PAIR_SPLITTER] in [openware_constants], which is not
    part of this file; the codec is parametric in it. *)
Variable TRADING_PAIR_SPLITTER : string -> exc (option re_match).

Definition split_trading_pair (trading_pair : string)
  : exc (option (option string * option string)) :=
  try_except
    (m <- TRADING_PAIR_SPLITTER trading_pair ;;
     g1 <- group m 1 ;;
     g2 <- group m 2 ;;
     Ret (Some (g1, g2)))
    (fun _ => Ret None).

Definition convert_from_exchange_trading_pair (ex_trading_pair : string)
  : exc (option string) :=
  regex_match <- split_trading_pair ex_trading_pair ;;
  match regex_match with
  | None => Ret None
  | Some _ =>
      again <- split_trading_pair ex_trading_pair ;;
      assets <- unpack_pair again ;;
      base <- upper_method (fst assets) ;;
      quote <- upper_method (snd assets) ;;
      Ret (Some (base ++ "-" ++ quote))
  end.

End SymbolCodec.

Definition convert_to_exchange_trading_pair (hb_trading_pair : string) : string :=
  lower (replace "-" EmptyString hb_trading_pair).

(** The pattern [(eth)(btc)] under [match]: it matches exactly the strings
    that start with [ethbtc]. *)
Definition eth_btc_pattern (s : string) : exc (option re_match) :=
  if prefix "ethbtc" s
  then Ret (Some {| whole := "ethbtc"; groups := [Some "eth"; Some "btc"] |})
  else Ret None.

(** A canonical asset code: non-empty, upper-case letters only. *)
Definition canonical_asset (s : string) : Prop :=
  s <> EmptyString /\ all_chars is_upper s = true.

(* ===================================================================== *)
(** * Order id generator *)
(* ===================================================================== *)

Section OrderId.

(** [Constants.HBOT_BROKER_ID] and the nonce source
    [hummingbot.core.utils.tracking_nonce.get_tracking_nonce] live outside
    this file.  The nonce source is a piece of state with a draw operation. *)
Variable HBOT_BROKER_ID : string.
Variable NonceSource : Type.
Variable get_tracking_nonce : NonceSource -> Z * NonceSource.

(** Lines 68-73: everything that happens before the nonce is drawn. *)
Definition order_id_stem (is_buy : bool) (trading_pair : string) : exc string :=
  let side := if is_buy then "B" else "S" in
  let symbols := split "-" trading_pair in
  base0 <- list_index symbols 0 ;;
  let base := upper base0 in
  quote0 <- list_index symbols 1 ;;
  let quote := upper quote0 in
  base_last <- last_char base ;;
  let base_str := slice_to 4 base ++ String base_last EmptyString in
  quote_last <- last_char quote ;;
  let quote_str := slice_to 2 quote ++ String quote_last EmptyString in
  Ret (HBOT_BROKER_ID ++ "-" ++ side ++ base_str ++ quote_str).

Definition get_new_client_order_id (is_buy : bool) (trading_pair : string)
  (src : NonceSource) : exc string * NonceSource :=
  match order_id_stem is_buy trading_pair with
  | Raise e => (Raise e, src)
  | Ret stem =>
      let (nonce, src') := get_tracking_nonce src in
      (Ret (stem ++ str_of_int nonce), src')
  end.

End OrderId.

Arguments get_new_client_order_id HBOT_BROKER_ID {NonceSource} get_tracking_nonce
  is_buy trading_pair src.

(** A nonce source that counts upwards: each draw returns the next integer. *)
Definition counter_nonce (last : Z) : Z * Z := (last + 1, last + 1)%Z.

(** The part of a string after its last letter. *)
Fixpoint after_last_alpha (s : string) : string :=
  match s with
  | EmptyString => EmptyString
  | String c r =>
      if any_char is_alpha r then after_last_alpha r
      else if is_alpha c then r else String c r
  end.

(** An asset code made of letters only, at least one. *)
Definition alphabetic (s : string) : Prop :=
  s <> EmptyString /\ all_chars is_alpha s = true.

Definition dash_free (s : string) : Prop :=
  any_char (Ascii.eqb "-") s = false.

(** The trading pairs that have a non-empty base and a non-empty quote
    component: [base-quote] or [base-quote-more]. *)
Definition has_base_and_quote (trading_pair : string) : Prop :=
  exists base quote rest,
    trading_pair = base ++ "-" ++ quote ++ rest /\
    base <> EmptyString /\ dash_free base /\
    quote <> EmptyString /\ dash_free quote /\
    (rest = EmptyString \/ exists more, rest = String "-" more).

(* ===================================================================== *)
(** * Response normalizer *)
(* ===================================================================== *)

(** The Python values a response body can be: what [json()] decodes to,
    plus the [str] values the routine builds itself. *)
#[warnings="-register-all"]
Inductive value : Type :=
| VNone
| VBool (b : bool)
| VInt (z : Z)
| VFloat (literal : string)
| VStr (s : string)
| VList (items : list value)
| VDict (entries : list (string * value)).

Definition is_none (v : value) : bool :=
  match v with
  | VNone => true
  | _ => false
  end.

Definition is_str (needle : string) (v : value) : bool :=
  match v with
  | VStr s => String.eqb s needle
  | _ => false
  end.

Definition has_key (key : string) (entries : list (string * value)) : bool :=
  existsb (fun kv => String.eqb (fst kv) key) entries.

(** [needle in v]: key test on a dict, element test on a list, substring
    test on a string; the other values are not containers. *)
Definition py_in (needle : string) (v : value) : exc bool :=
  match v with
  | VDict entries => Ret (has_key needle entries)
  | VList items => Ret (existsb (is_str needle) items)
  | VStr s => Ret (contains needle s)
  | VNone | VBool _ | VInt _ | VFloat _ => Raise TypeError
  end.

(** The response object of the HTTP client: its [status] and [reason]
    attributes and the outcome of awaiting [json()] and [read()]. *)
Record ClientResponse : Type := {
  status : Z;
  reason : option string;
  json : exc value;
  read : exc string
}.

(** The awaited request as an asynchronous context manager: entering it
    yields the response or raises; leaving it is told the exception in
    flight, if any, and answers whether to swallow it, or raises itself. *)
Record RequestContext : Type := {
  aenter : exc ClientResponse;
  aexit : option exn -> exc bool
}.

(** The three local variables of [aiohttp_response_with_errors]. *)
Record Locals : Type := {
  http_status : option Z;
  parsed_response : value;
  request_errors : bool
}.

(** Statements: they update the locals and finish normally or by an
    exception; assignments made before a raise stay made. *)
Definition stmt : Type := Locals -> Locals * exc unit.

Definition skip : stmt := fun l => (l, Ret tt).

Definition seq (s1 s2 : stmt) : stmt :=
  fun l =>
    match s1 l with
    | (l', Ret _) => s2 l'
    | (l', Raise e) => (l', Raise e)
    end.

Definition try_stmt (body : stmt) (handler : stmt) : stmt :=
  fun l =>
    match body l with
    | (l', Ret _) => (l', Ret tt)
    | (l', Raise _) => handler l'
    end.

(** [x = e] where evaluating [e] may raise. *)
Definition assign_from {A : Type} (e : Locals -> exc A) (set : A -> Locals -> Locals) : stmt :=
  fun l =>
    match e l with
    | Ret a => (set a l, Ret tt)
    | Raise ex => (l, Raise ex)
    end.

Definition if_stmt (cond : Locals -> bool) (s1 s2 : stmt) : stmt :=
  fun l => if cond l then s1 l else s2 l.

Definition set_http_status (z : Z) (l : Locals) : Locals :=
  {| http_status := Some z;
     parsed_response := parsed_response l;
     request_errors := request_errors l |}.

Definition set_parsed_response (v : value) (l : Locals) : Locals :=
  {| http_status := http_status l;
     parsed_response := v;
     request_errors := request_errors l |}.

Definition set_request_errors (b : bool) (l : Locals) : Locals :=
  {| http_status := http_status l;
     parsed_response := parsed_response l;
     request_errors := b |}.

Notation "s1 ;;; s2" := (seq s1 s2) (at level 62, right associativity).

(** [async with cm as response: body] *)
Definition async_with (cm : RequestContext) (body : ClientResponse -> stmt) : stmt :=
  fun l =>
    match aenter cm with
    | Raise e => (l, Raise e)
    | Ret response =>
        match body response l with
        | (l', Ret _) =>
            match aexit cm None with
            | Ret _ => (l', Ret tt)
            | Raise e => (l', Raise e)
            end
        | (l', Raise e) =>
            match aexit cm (Some e) with
            | Ret true => (l', Ret tt)
            | Ret false => (l', Raise e)
            | Raise e' => (l', Raise e')
            end
        end
    end.

Definition option_value (o : option string) : value :=
  match o with
  | Some s => VStr s
  | None => VNone
  end.

(** Lines 111-116: the fallback to the raw body. *)
Definition read_raw_body (response : ClientResponse) : stmt :=
  try_stmt
    (assign_from (fun _ => b <- read response ;; Ret (VStr (str_of_bytes b)))
                 set_parsed_response ;;;
     if_stmt (fun l => match parsed_response l with
                       | VStr s => (100 <? String.length s)%nat
                       | _ => false
                       end)
       (assign_from (fun l => match parsed_response l with
                              | VStr s => Ret (VStr (slice_to 100 s ++ " ... (truncated)"))
                              | v => Ret v
                              end)
                    set_parsed_response)
       skip)
    skip.

(** Lines 117-118: the value of [TempFailure]. *)
Definition TempFailure (response : ClientResponse) (l : Locals) : exc bool :=
  if is_none (parsed_response l) then Ret true
  else if negb (Z.eqb (status response) 200 || Z.eqb (status response) 201)
       then found <- py_in "error" (parsed_response l) ;; Ret (negb found)
       else Ret false.

(** Lines 107-116: decode the body, falling back to the raw body. *)
Definition parse_body (response : ClientResponse) : stmt :=
  try_stmt
    (assign_from (fun _ => json response) set_parsed_response)
    (assign_from (fun _ => Ret true) set_request_errors ;;;
     read_raw_body response).

(** Lines 117-121: classify the outcome. *)
Definition classify (response : ClientResponse) : stmt :=
  fun l =>
    match TempFailure response l with
    | Raise e => (l, Raise e)
    | Ret true =>
        (assign_from (fun l' => Ret (if is_none (parsed_response l')
                                     then option_value (reason response)
                                     else parsed_response l'))
                     set_parsed_response ;;;
         assign_from (fun _ => Ret true) set_request_errors) l
    | Ret false => (l, Ret tt)
    end.

(** Lines 106-121: the body of the [async with]. *)
Definition handle_response (response : ClientResponse) : stmt :=
  assign_from (fun _ => Ret (status response)) set_http_status ;;;
  parse_body response ;;;
  classify response.

Definition aiohttp_response_with_errors (request_coroutine : RequestContext)
  : exc (option Z * value * bool) :=
  let init := {| http_status := None; parsed_response := VNone; request_errors := false |} in
  match try_stmt (async_with request_coroutine handle_response)
                 (assign_from (fun _ => Ret true) set_request_errors) init with
  | (l, Ret _) => Ret (http_status l, parsed_response l, request_errors l)
  | (_, Raise e) => Raise e
  end.

(** A request that enters and leaves without fault. *)
Definition completed (response : ClientResponse) : RequestContext :=
  {| aenter := Ret response; aexit := fun _ => Ret false |}.

(** A statement that never assigns [http_status]. *)
Definition keeps_status (s : stmt) : Prop :=
  forall l, http_status (fst (s l)) = http_status l.

(** A request that fails before any response exists. *)
Definition refused (e : exn) : RequestContext :=
  {| aenter := Raise e; aexit := fun _ => Ret false |}.

(** The body is a JSON object with an [error] member. *)
Definition has_error_field (v : value) : Prop :=
  exists entries, v = VDict entries /\ In "error" (map fst entries).

(** Structured JSON as far as the routine can tell it apart: an object, or
    [null], which decodes to [None]. *)
Definition structured (v : value) : Prop :=
  v = VNone \/ exists entries, v = VDict entries.

Definition error_500 : ClientResponse :=
  {| status := 500;
     reason := Some "Internal Server Error";
     json := Ret (VDict [("error", VStr "insufficient balance")]);
     read := Ret "{}" |}.

Definition unreadable_500 : ClientResponse :=
  {| status := 500;
     reason := Some "Internal Server Error";
     json := Raise (Fault "ContentTypeError");
     read := Raise (Fault "ClientPayloadError") |}.

(* ===================================================================== *)
(** * Date utility *)
(* ===================================================================== *)

Local Open Scope Z_scope.

(** ** Binary64 numbers *)

(** A finite [float]: the number [mantissa * 2 ^ exponent].  The values met
    below are far inside the range of normal binary64 numbers, so overflow
    and subnormal numbers are left out. *)
Record float : Type := {
  mantissa : Z;
  exponent : Z
}.

(** The integer nearest to [n / d], ties to even; [0 <= n], [0 < d]. *)
Definition round_half_even (n d : Z) : Z :=
  let q := n / d in
  let r := n mod d in
  if 2 * r <? d then q
  else if d <? 2 * r then q + 1
  else if Z.even q then q else q + 1.

(** The [k] with [2 ^ k <= n / d < 2 ^ (k + 1)]; [0 < n], [0 < d]. *)
Definition floor_log2_ratio (n d : Z) : Z :=
  let e := Z.log2 n - Z.log2 d in
  if (if 0 <=? e then d * 2 ^ e <=? n else d <=? n * 2 ^ (- e))
  then e else e - 1.

(** The binary64 number nearest to [n / d], ties to even: 53 significant
    bits.  This is what [int / int], the conversion of an [int] to [float]
    and every [float] operation return for the exact result [n / d];
    [0 < d]. *)
Definition float_of_ratio (n d : Z) : float :=
  if n =? 0 then {| mantissa := 0; exponent := 0 |}
  else
    let a := Z.abs n in
    let e := floor_log2_ratio a d - 52 in
    let m := if 0 <=? e then round_half_even a (d * 2 ^ e)
             else round_half_even (a * 2 ^ (- e)) d in
    {| mantissa := Z.sgn n * m; exponent := e |}.

(** A [float] as an exact fraction with a positive denominator. *)
Definition ratio_of_float (x : float) : Z * Z :=
  if 0 <=? exponent x then (mantissa x * 2 ^ exponent x, 1)
  else (mantissa x, 2 ^ (- exponent x)).

(** [x + y] on [float]s. *)
Definition float_add (x y : float) : float :=
  let (a, b) := ratio_of_float x in
  let (c, d) := ratio_of_float y in
  float_of_ratio (a * d + c * b) (b * d).

(** [int(x)]: truncation toward zero. *)
Definition int_of_float (x : float) : Z :=
  let (a, b) := ratio_of_float x in Z.quot a b.

(** ** [datetime] *)

(** The [tzinfo] of a [datetime] as far as [timestamp()] looks at it: none
    (a naive value), one whose [utcoffset()] is a duration, in microseconds,
    or one whose [utcoffset()] is [None]. *)
Inductive tzinfo : Type :=
| Naive
| Offset (microseconds : Z)
| NoOffset.

(** A well-formed [datetime.datetime]: calendar fields in their ranges. *)
Record datetime : Type := {
  year : Z;
  month : Z;
  day : Z;
  hour : Z;
  minute : Z;
  second : Z;
  microsecond : Z;
  tz : tzinfo
}.

Definition is_leap (y : Z) : bool :=
  (y mod 4 =? 0) && (negb (y mod 100 =? 0) || (y mod 400 =? 0)).

Definition days_before_year (y : Z) : Z :=
  let p := y - 1 in p * 365 + p / 4 - p / 100 + p / 400.

Definition days_before_month (y m : Z) : Z :=
  nth (Z.to_nat m) [0; 0; 31; 59; 90; 120; 151; 181; 212; 243; 273; 304; 334] 0
  + (if (2 <? m) && is_leap y then 1 else 0).

(** The proleptic Gregorian ordinal of a date; 1 is 0001-01-01. *)
Definition ymd2ord (y m d : Z) : Z :=
  days_before_year y + days_before_month y m + d.

Definition epoch_ordinal : Z := ymd2ord 1970 1 1.

(** [dt - datetime(1970, 1, 1, tzinfo=utc)] for an aware [dt] with the
    given offset, in microseconds: an exact integer. *)
Definition epoch_microseconds (dt : datetime) (offset : Z) : Z :=
  ((ymd2ord (year dt) (month dt) (day dt) - epoch_ordinal) * 86400
   + hour dt * 3600 + minute dt * 60 + second dt) * 1000000
  + microsecond dt - offset.

Section DateUtility.

(** [dateutil.parser.parse] is a third-party parser, and the conversion of
    a naive local time to epoch seconds depends on the host's time zone and
    can fail; both are parameters. *)
Variable dateparse : string -> exc datetime.
Variable mktime : datetime -> exc Z.

(** [dt.timestamp()].  Aware: [(dt - epoch).total_seconds()], the exact
    microsecond count divided by [10 ** 6] as [int / int].  Naive: the local
    seconds as a [float] plus [microsecond / 1e6]. *)
Definition timestamp (dt : datetime) : exc float :=
  match tz dt with
  | Offset offset => Ret (float_of_ratio (epoch_microseconds dt offset) 1000000)
  | NoOffset => Raise TypeError
  | Naive =>
      seconds <- mktime dt ;;
      Ret (float_add (float_of_ratio seconds 1)
                     (float_of_ratio (microsecond dt) 1000000))
  end.

Definition str_date_to_ts (date : string) : exc Z :=
  dt <- dateparse date ;;
  x <- timestamp dt ;;
  Ret (int_of_float x).

End DateUtility.

(** A reference parser for the one layout [YYYY-MM-DDTHH:MM:SSZ]; the
    general-purpose parser reads such a string as that instant in UTC. *)
Definition field (s : string) (start len : nat) : option Z :=
  let text := substring start len s in
  if all_chars is_digit text
  then option_map Z.of_uint (NilEmpty.uint_of_string text)
  else None.

Definition parse_iso_utc (s : string) : exc datetime :=
  let sep i c := match String.get i s with
                 | Some x => Ascii.eqb x c
                 | None => false
                 end in
  if (String.length s =? 20)%nat
     && sep 4%nat "-"%char && sep 7%nat "-"%char && sep 10%nat "T"%char
     && sep 13%nat ":"%char && sep 16%nat ":"%char && sep 19%nat "Z"%char
  then
    match field s 0 4, field s 5 2, field s 8 2, field s 11 2, field s 14 2, field s 17 2 with
    | Some y, Some mo, Some d, Some h, Some mi, Some se =>
        Ret {| year := y; month := mo; day := d; hour := h; minute := mi;
               second := se; microsecond := 0; tz := Offset 0 |}
    | _, _, _, _, _, _ => Raise (Fault "ParserError")
    end
  else Raise (Fault "ParserError").

(** 2021-01-01 00:00:00 UTC. *)
Definition new_year_2021 : datetime :=
  {| year := 2021; month := 1; day := 1; hour := 0; minute := 0; second := 0;
     microsecond := 0; tz := Offset 0 |}.

(** 3000-01-01 00:00:00.999999 UTC. *)
Definition year_3000 : datetime :=
  {| year := 3000; month := 1; day := 1; hour := 0; minute := 0; second := 0;
     microsecond := 999999; tz := Offset 0 |}.

Local Close Scope Z_scope.

(* ===================================================================== *)
(** * Request ids and notions used to state further properties *)
(* ===================================================================== *)

(** [RequestId.generate_request_id] (lines 39-41): one draw from the nonce
    source. *)
Definition generate_request_id {NonceSource : Type}
  (get_tracking_nonce : NonceSource -> Z * NonceSource) (src : NonceSource)
  : Z * NonceSource :=
  get_tracking_nonce src.

(** The nonce source after [k] request ids were generated. *)
Fixpoint after_requests {NonceSource : Type}
  (get_tracking_nonce : NonceSource -> Z * NonceSource) (k : nat) (src : NonceSource)
  : NonceSource :=
  match k with
  | O => src
  | S k' => after_requests get_tracking_nonce k'
              (snd (generate_request_id get_tracking_nonce src))
  end.

(** A nonce source whose every draw is larger than the one before. *)
Definition strictly_increasing {NonceSource : Type}
  (get_tracking_nonce : NonceSource -> Z * NonceSource) : Prop :=
  forall src,
    (fst (get_tracking_nonce src)
     < fst (get_tracking_nonce (snd (get_tracking_nonce src))))%Z.

(** ASCII text: every code point below 128.  On such text the case mappings
    above are those of [str.upper] and [str.lower]. *)
Definition is_ascii (c : ascii) : bool := (nat_of_ascii c <? 128)%nat.

Definition ascii_text (s : string) : Prop := all_chars is_ascii s = true.

(** An exchange symbol: no upper-case letter and no dash. *)
Definition exchange_symbol (s : string) : Prop :=
  all_chars (fun c => negb (is_upper c) && negb (Ascii.eqb c "-")) s = true.

(** Lines 113-114: a text longer than 100 characters is cut and marked. *)
Definition diagnostic (text : string) : string :=
  if (100 <? String.length text)%nat
  then slice_to 100 text ++ " ... (truncated)"
  else text.

Definition printable (c : ascii) : bool :=
  let n := nat_of_ascii c in (32 <=? n)%nat && (n <? 127)%nat.

(** A context manager that never swallows an exception raised inside it,
    as the HTTP client's is. *)
Definition never_swallows (request : RequestContext) : Prop :=
  forall e, aexit request (Some e) <> Ret true.

(* ===================================================================== *)
(** * The response normalizer under signals that are not [Exception]s *)
(* ===================================================================== *)

(** [except Exception] does not catch every exception: [asyncio.CancelledError],
    [KeyboardInterrupt] and [SystemExit] derive from [BaseException] only.
    An await can deliver one of them (a cancelled task receives
    [CancelledError] at the await it is suspended on).  The routine is
    modelled here a second time over outcomes that include such signals;
    [aiohttp_response_with_errors] above is its restriction to requests
    whose awaits return or raise instances of [Exception]. *)

Module Task.

Inductive signal : Type :=
| CancelledError
| KeyboardInterrupt
| SystemExit.

(** What can be raised: an instance of [Exception], or a signal. *)
Inductive raised : Type :=
| Failure (e : exn)
| Signal (s : signal).

Inductive result (A : Type) : Type :=
| Returns (a : A)
| Raises (r : raised).

Arguments Returns {A} a.
Arguments Raises {A} r.

Definition of_exc {A : Type} (x : exc A) : result A :=
  match x with
  | Ret a => Returns a
  | Raise e => Raises (Failure e)
  end.

Record ClientResponse : Type := {
  status : Z;
  reason : option string;
  json : result value;
  read : result string
}.

Record RequestContext : Type := {
  aenter : result ClientResponse;
  aexit : option raised -> result bool
}.

Definition stmt : Type := Locals -> Locals * result unit.

Definition skip : stmt := fun l => (l, Returns tt).

Definition seq (s1 s2 : stmt) : stmt :=
  fun l =>
    match s1 l with
    | (l', Returns _) => s2 l'
    | (l', Raises r) => (l', Raises r)
    end.

(** [try: body / except Exception: handler]: a signal passes through. *)
Definition try_stmt (body : stmt) (handler : stmt) : stmt :=
  fun l =>
    match body l with
    | (l', Returns _) => (l', Returns tt)
    | (l', Raises (Failure _)) => handler l'
    | (l', Raises (Signal s)) => (l', Raises (Signal s))
    end.

Definition assign_from {A : Type} (e : Locals -> result A) (set : A -> Locals -> Locals)
  : stmt :=
  fun l =>
    match e l with
    | Returns a => (set a l, Returns tt)
    | Raises r => (l, Raises r)
    end.

Definition if_stmt (cond : Locals -> bool) (s1 s2 : stmt) : stmt :=
  fun l => if cond l then s1 l else s2 l.

(** [async with cm as response: body] *)
Definition async_with (cm : RequestContext) (body : ClientResponse -> stmt) : stmt :=
  fun l =>
    match aenter cm with
    | Raises r => (l, Raises r)
    | Returns response =>
        match body response l with
        | (l', Returns _) =>
            match aexit cm None with
            | Returns _ => (l', Returns tt)
            | Raises r => (l', Raises r)
            end
        | (l', Raises r) =>
            match aexit cm (Some r) with
            | Returns true => (l', Returns tt)
            | Returns false => (l', Raises r)
            | Raises r' => (l', Raises r')
            end
        end
    end.

(** Lines 111-116. *)
Definition read_raw_body (response : ClientResponse) : stmt :=
  try_stmt
    (seq
       (assign_from (fun _ => match read response with
                              | Returns b => Returns (VStr (str_of_bytes b))
                              | Raises r => Raises r
                              end)
                    set_parsed_response)
       (if_stmt (fun l => match parsed_response l with
                          | VStr s => (100 <? String.length s)%nat
                          | _ => false
                          end)
          (assign_from (fun l => match parsed_response l with
                                 | VStr s => Returns (VStr (slice_to 100 s ++ " ... (truncated)"))
                                 | v => Returns v
                                 end)
                       set_parsed_response)
          skip))
    skip.

(** Lines 117-118. *)
Definition TempFailure (response : ClientResponse) (l : Locals) : result bool :=
  if is_none (parsed_response l) then Returns true
  else if negb (Z.eqb (status response) 200 || Z.eqb (status response) 201)
       then match py_in "error" (parsed_response l) with
            | Ret found => Returns (negb found)
            | Raise e => Raises (Failure e)
            end
       else Returns false.

(** Lines 107-116. *)
Definition parse_body (response : ClientResponse) : stmt :=
  try_stmt
    (assign_from (fun _ => json response) set_parsed_response)
    (seq (assign_from (fun _ => Returns true) set_request_errors)
         (read_raw_body response)).

(** Lines 117-121. *)
Definition classify (response : ClientResponse) : stmt :=
  fun l =>
    match TempFailure response l with
    | Raises r => (l, Raises r)
    | Returns true =>
        seq (assign_from (fun l' => Returns (if is_none (parsed_response l')
                                             then option_value (reason response)
                                             else parsed_response l'))
                         set_parsed_response)
            (assign_from (fun _ => Returns true) set_request_errors) l
    | Returns false => (l, Returns tt)
    end.

(** Lines 106-121. *)
Definition handle_response (response : ClientResponse) : stmt :=
  seq (assign_from (fun _ => Returns (status response)) set_http_status)
      (seq (parse_body response) (classify response)).

Definition aiohttp_response_with_errors (request_coroutine : RequestContext)
  : result (option Z * value * bool) :=
  let init := {| http_status := None; parsed_response := VNone; request_errors := false |} in
  match try_stmt (async_with request_coroutine handle_response)
                 (assign_from (fun _ => Returns true) set_request_errors) init with
  | (l, Returns _) => Returns (http_status l, parsed_response l, request_errors l)
  | (_, Raises r) => Raises r
  end.







End Task.

(** The requests of the first model, seen as requests of the second. *)
Definition task_response (response : ClientResponse) : Task.ClientResponse :=
  {| Task.status := status response;
     Task.reason := reason response;
     Task.json := Task.of_exc (json response);
     Task.read := Task.of_exc (read response) |}.

Definition task_request (request : RequestContext) : Task.RequestContext :=
  {| Task.aenter := match aenter request with
                    | Ret response => Task.Returns (task_response response)
                    | Raise e => Task.Raises (Task.Failure e)
                    end;
     Task.aexit := fun x =>
       match x with
       | None => Task.of_exc (aexit request None)
       | Some (Task.Failure e) => Task.of_exc (aexit request (Some e))
       | Some (Task.Signal _) => Task.Returns false
       end |}.

(** The two models agree on a statement. *)
Definition agrees (t : Task.stmt) (s : stmt) : Prop :=
  forall l, t l = (fst (s l), Task.of_exc (snd (s l))).

(* ===================================================================== *)
(** * Properties *)
(* ===================================================================== *)

(** ** Characters and strings *)

Example ex_split :
  split "-" "ETH-BTC" = ["ETH"; "BTC"]
  /\ split "-" "ETHBTC" = ["ETHBTC"]
  /\ split "-" EmptyString = [EmptyString]
  /\ split "-" "A--B-" = ["A"; EmptyString; "B"; EmptyString].
Proof. repeat split. Qed.

Example ex_slice_and_last :
  slice_to 4 "ETH" = "ETH" /\ slice_to 2 "USDT" = "US"
  /\ last_char "ETH" = Ret "H"%char /\ last_char EmptyString = Raise IndexError.
Proof. repeat split. Qed.

Example ex_case :
  upper "eth1-x" = "ETH1-X" /\ lower "ETH1-X" = "eth1-x".
Proof. split; reflexivity. Qed.

Example ex_str_of_int :
  str_of_int 0 = "0" /\ str_of_int 1609459200 = "1609459200" /\ str_of_int (-42) = "-42".
Proof. repeat split. Qed.

Example ex_contains :
  contains "error" "an error occurred" = true /\ contains "error" "fine" = false.
Proof. split; reflexivity. Qed.

(** Facts about single characters are settled by going through the 256
    of them. *)
Ltac by_char_cases c :=
  destruct c as [[] [] [] [] [] [] [] []]; vm_compute; congruence.

Lemma lower_upper_char c : is_upper c = true -> upper_char (lower_char c) = c.
Proof. by_char_cases c. Qed.

Lemma lower_char_idem c : lower_char (lower_char c) = lower_char c.
Proof. by_char_cases c. Qed.

Lemma lower_char_dash c : lower_char c = "-"%char -> c = "-"%char.
Proof. by_char_cases c. Qed.

Lemma upper_char_alpha c : is_alpha c = true -> is_alpha (upper_char c) = true.
Proof. by_char_cases c. Qed.

Lemma alpha_not_dash c : is_alpha c = true -> Ascii.eqb "-" c = false.
Proof. by_char_cases c. Qed.

Lemma upper_not_dash c : is_upper c = true -> Ascii.eqb c "-" = false.
Proof. by_char_cases c. Qed.

Lemma append_empty_r (s : string) : s ++ EmptyString = s.
Proof.
  induction s as [|c r IH]; simpl; [reflexivity | now rewrite IH].
Qed.

Lemma append_assoc (a b c : string) : (a ++ b) ++ c = a ++ (b ++ c).
Proof.
  induction a as [|x a IH]; simpl; [reflexivity | now rewrite IH].
Qed.

Lemma append_inv_head (p a b : string) : p ++ a = p ++ b -> a = b.
Proof.
  induction p as [|x p IH]; simpl; intros H; [exact H | injection H; auto].
Qed.

Lemma map_chars_app f (a b : string) :
  map_chars f (a ++ b) = map_chars f a ++ map_chars f b.
Proof.
  induction a as [|x a IH]; simpl; [reflexivity | now rewrite IH].
Qed.

Lemma any_char_app p (a b : string) :
  any_char p (a ++ b) = any_char p a || any_char p b.
Proof.
  induction a as [|x a IH]; simpl; [reflexivity | now rewrite IH, orb_assoc].
Qed.

Lemma all_chars_app p (a b : string) :
  all_chars p (a ++ b) = all_chars p a && all_chars p b.
Proof.
  induction a as [|x a IH]; simpl; [reflexivity | now rewrite IH, andb_assoc].
Qed.

Lemma all_chars_map p q f (s : string) :
  (forall c, p c = true -> q (f c) = true) ->
  all_chars p s = true -> all_chars q (map_chars f s) = true.
Proof.
  intros Hf. induction s as [|c r IH]; simpl; [reflexivity |].
  intros H. apply andb_true_iff in H as [Hc Hr].
  now rewrite (Hf c Hc), (IH Hr).
Qed.

Lemma all_chars_none p q (s : string) :
  (forall c, p c = true -> q c = false) ->
  all_chars p s = true -> any_char q s = false.
Proof.
  intros Hpq. induction s as [|c r IH]; simpl; [reflexivity |].
  intros H. apply andb_true_iff in H as [Hc Hr].
  now rewrite (Hpq c Hc), (IH Hr).
Qed.

Lemma upper_dash_free (s : string) : all_chars is_upper s = true -> dash_free s.
Proof.
  apply all_chars_none. intros c Hc.
  rewrite Ascii.eqb_sym. now apply upper_not_dash.
Qed.

Lemma alpha_dash_free (s : string) : all_chars is_alpha s = true -> dash_free s.
Proof.
  apply all_chars_none. exact alpha_not_dash.
Qed.

(** ** Symbol codec *)

Lemma replace_dash_free (s : string) :
  dash_free s -> replace "-" EmptyString s = s.
Proof.
  unfold dash_free. induction s as [|c r IH]; cbn [replace any_char]; [reflexivity |].
  intros H. apply orb_false_iff in H as [Hc Hr].
  rewrite Ascii.eqb_sym, Hc. now rewrite (IH Hr).
Qed.

Lemma replace_app (a b : string) :
  replace "-" EmptyString (a ++ b)
  = replace "-" EmptyString a ++ replace "-" EmptyString b.
Proof.
  induction a as [|c r IH]; cbn [replace append]; [reflexivity |].
  destruct (Ascii.eqb c "-"); cbn [append]; now rewrite IH.
Qed.

Lemma lower_idem (s : string) : lower (lower s) = lower s.
Proof.
  unfold lower. induction s as [|c r IH]; simpl; [reflexivity |].
  now rewrite lower_char_idem, IH.
Qed.

Lemma upper_lower (s : string) : all_chars is_upper s = true -> upper (lower s) = s.
Proof.
  unfold upper, lower. induction s as [|c r IH]; simpl; [reflexivity |].
  intros H. apply andb_true_iff in H as [Hc Hr].
  now rewrite (lower_upper_char c Hc), (IH Hr).
Qed.

Lemma convert_to_chars (p : string) :
  list_ascii_of_string (convert_to_exchange_trading_pair p)
  = map lower_char
      (filter (fun c => negb (Ascii.eqb c "-")) (list_ascii_of_string p)).
Proof.
  unfold convert_to_exchange_trading_pair, lower.
  induction p as [|c r IH]; cbn [replace list_ascii_of_string filter map]; [reflexivity |].
  destruct (Ascii.eqb c "-"); cbn [negb append map_chars list_ascii_of_string map];
    now rewrite IH.
Qed.

Lemma any_char_In p (s : string) :
  any_char p s = true <-> exists c, In c (list_ascii_of_string s) /\ p c = true.
Proof.
  induction s as [|c r IH]; simpl.
  - split; [discriminate | intros [c [[] _]]].
  - rewrite orb_true_iff, IH. split.
    + intros [H | [x [Hin Hx]]]; [exists c | exists x]; auto.
    + intros [x [[<- | Hin] Hx]]; [left | right; exists x]; auto.
Qed.

Lemma convert_to_dash_free (p : string) :
  dash_free (convert_to_exchange_trading_pair p).
Proof.
  unfold dash_free.
  destruct (any_char (Ascii.eqb "-") (convert_to_exchange_trading_pair p)) eqn:E;
    [exfalso | reflexivity].
  apply any_char_In in E as [c [Hin Hc]].
  apply Ascii.eqb_eq in Hc. subst c.
  rewrite convert_to_chars in Hin.
  apply in_map_iff in Hin as [x [Hx Hin]].
  apply filter_In in Hin as [_ Hne].
  apply lower_char_dash in Hx. subst x. discriminate.
Qed.

Lemma convert_to_canonical (B Q : string) :
  all_chars is_upper B = true -> all_chars is_upper Q = true ->
  convert_to_exchange_trading_pair (B ++ "-" ++ Q) = lower B ++ lower Q.
Proof.
  intros HB HQ. unfold convert_to_exchange_trading_pair.
  rewrite replace_app. simpl.
  rewrite (replace_dash_free B (upper_dash_free B HB)).
  rewrite (replace_dash_free Q (upper_dash_free Q HQ)).
  unfold lower. apply map_chars_app.
Qed.

(** C9.  [convert_to_exchange_trading_pair] drops every [-] of its input,
    not just one, and lower-cases the characters that remain: its characters
    are the lower-cased non-dash characters of the input, in order, so no
    [-] is left (a pair with two dashes loses both); applying it twice is
    the same as applying it once. *)
Theorem convert_to_removes_dashes_and_is_idempotent :
  forall p : string,
    list_ascii_of_string (convert_to_exchange_trading_pair p)
    = map lower_char
        (filter (fun c => negb (Ascii.eqb c "-")) (list_ascii_of_string p))
    /\ ~ In "-"%char (list_ascii_of_string (convert_to_exchange_trading_pair p))
    /\ convert_to_exchange_trading_pair "A-B-C" = "abc"
    /\ convert_to_exchange_trading_pair (convert_to_exchange_trading_pair p)
       = convert_to_exchange_trading_pair p.
Proof.
  intros p. split; [apply convert_to_chars |]. split; [| split; [reflexivity |]].
  - intros Hin.
    pose proof (convert_to_dash_free p) as Hfree. unfold dash_free in Hfree.
    assert (any_char (Ascii.eqb "-") (convert_to_exchange_trading_pair p) = true) as Hany.
    { apply any_char_In. exists "-"%char. split; [exact Hin | apply Ascii.eqb_refl]. }
    congruence.
  - unfold convert_to_exchange_trading_pair at 1.
    rewrite (replace_dash_free _ (convert_to_dash_free p)).
    unfold convert_to_exchange_trading_pair. apply lower_idem.
Qed.

(** C7.  [split_trading_pair] returns for every input and every behaviour
    of the pattern: the pair of groups 1 and 2 when the pattern matches (and
    has them), [None] when it does not match, when the match raises, or when
    a group is missing. *)
Theorem split_trading_pair_never_raises :
  forall (splitter : string -> exc (option re_match)) (s : string),
    split_trading_pair splitter s
    = Ret (match splitter s with
           | Ret (Some m) =>
               match groups m with
               | g1 :: g2 :: _ => Some (g1, g2)
               | _ => None
               end
           | Ret None => None
           | Raise _ => None
           end).
Proof.
  intros splitter s. unfold split_trading_pair.
  destruct (splitter s) as [[m |] | e]; simpl; try reflexivity.
  destruct (groups m) as [| g1 [| g2 more]]; reflexivity.
Qed.

Example ex_split_ethbtc :
  split_trading_pair eth_btc_pattern "ethbtc" = Ret (Some (Some "eth", Some "btc")).
Proof. reflexivity. Qed.

Example ex_split_no_match :
  split_trading_pair eth_btc_pattern "not-a-symbol" = Ret None
  /\ convert_from_exchange_trading_pair eth_btc_pattern "not-a-symbol" = Ret None.
Proof. split; reflexivity. Qed.

Example ex_convert_from_ethbtc :
  convert_from_exchange_trading_pair eth_btc_pattern "ethbtc" = Ret (Some "ETH-BTC").
Proof. reflexivity. Qed.

(** C1, as stated, fails for every pattern: [AB-C] and [A-BC] are both
    canonical and both become [abc], and no pattern can send [abc] back to
    both of them. *)
Lemma roundtrip_fails_for_every_pattern :
  ~ exists splitter : string -> exc (option re_match),
      forall B Q : string,
        canonical_asset B -> canonical_asset Q ->
        convert_from_exchange_trading_pair splitter
          (convert_to_exchange_trading_pair (B ++ "-" ++ Q))
        = Ret (Some (B ++ "-" ++ Q)).
Proof.
  intros [splitter H].
  assert (canonical_asset "AB" /\ canonical_asset "C"
          /\ canonical_asset "A" /\ canonical_asset "BC") as (H1 & H2 & H3 & H4)
    by (repeat split; (discriminate || reflexivity)).
  pose proof (H "AB" "C" H1 H2) as E1.
  pose proof (H "A" "BC" H3 H4) as E2.
  change (convert_to_exchange_trading_pair ("AB" ++ "-" ++ "C")) with "abc" in E1.
  change (convert_to_exchange_trading_pair ("A" ++ "-" ++ "BC")) with "abc" in E2.
  rewrite E1 in E2. discriminate E2.
Qed.

(** C1, amended.  For a canonical pair [B-Q] whose exchange symbol the
    pattern splits back into the lower-cased [B] and [Q], converting to the
    exchange form and back returns [B-Q]. *)
Theorem roundtrip_when_pattern_splits_at_separator :
  forall (splitter : string -> exc (option re_match)) (B Q : string),
    canonical_asset B -> canonical_asset Q ->
    split_trading_pair splitter (lower B ++ lower Q)
      = Ret (Some (Some (lower B), Some (lower Q))) ->
    convert_from_exchange_trading_pair splitter
      (convert_to_exchange_trading_pair (B ++ "-" ++ Q))
    = Ret (Some (B ++ "-" ++ Q)).
Proof.
  intros splitter B Q [_ HB] [_ HQ] Hsplit.
  rewrite (convert_to_canonical B Q HB HQ).
  unfold convert_from_exchange_trading_pair.
  rewrite Hsplit. simpl.
  now rewrite (upper_lower B HB), (upper_lower Q HQ).
Qed.

Lemma roundtrip_eth_btc :
  canonical_asset "ETH" /\ canonical_asset "BTC"
  /\ convert_from_exchange_trading_pair eth_btc_pattern
       (convert_to_exchange_trading_pair ("ETH" ++ "-" ++ "BTC"))
     = Ret (Some ("ETH" ++ "-" ++ "BTC")).
Proof.
  assert (canonical_asset "ETH") as HB by (split; [discriminate | reflexivity]).
  assert (canonical_asset "BTC") as HQ by (split; [discriminate | reflexivity]).
  split; [exact HB | split; [exact HQ |]].
  apply (roundtrip_when_pattern_splits_at_separator eth_btc_pattern "ETH" "BTC" HB HQ).
  reflexivity.
Defined.

(** ** Order id generator *)

Lemma split_nonempty sep (s : string) : split sep s <> [].
Proof.
  destruct s as [|c r]; cbn [split]; [discriminate |].
  destruct (Ascii.eqb c sep); [discriminate |].
  destruct (split sep r); discriminate.
Qed.

Lemma split_dash_free (s : string) : dash_free s -> split "-" s = [s].
Proof.
  unfold dash_free. induction s as [|c r IH]; cbn [split any_char]; [reflexivity |].
  intros H. apply orb_false_iff in H as [Hc Hr].
  rewrite Ascii.eqb_sym, Hc, (IH Hr). reflexivity.
Qed.

Lemma split_at_dash (b r : string) :
  dash_free b -> split "-" (b ++ String "-" r) = b :: split "-" r.
Proof.
  unfold dash_free. induction b as [|c b IH]; cbn [split any_char append].
  - intros _. reflexivity.
  - intros H. apply orb_false_iff in H as [Hc Hb].
    rewrite Ascii.eqb_sym, Hc, (IH Hb). reflexivity.
Qed.

(** Every string either has no dash, or is a dash-free base, a dash, a
    dash-free quote, and then nothing or a further dash and more. *)
Lemma split_shape (s : string) :
  (dash_free s /\ split "-" s = [s])
  \/ exists b r, dash_free b /\ s = b ++ String "-" r /\ split "-" s = b :: split "-" r.
Proof.
  induction s as [|c s IH].
  - left. split; reflexivity.
  - destruct (Ascii.eqb c "-") eqn:Ec.
    + apply Ascii.eqb_eq in Ec. subst c. right.
      exists EmptyString, s. repeat split.
    + destruct IH as [[Hfree Hs] | (b & r & Hb & Hs & Hsplit)].
      * left. assert (dash_free (String c s)) as H.
        { unfold dash_free in *. cbn [any_char]. now rewrite Ascii.eqb_sym, Ec, Hfree. }
        split; [exact H | now apply split_dash_free].
      * right. exists (String c b), r.
        assert (dash_free (String c b)) as H.
        { unfold dash_free in *. cbn [any_char]. now rewrite Ascii.eqb_sym, Ec, Hb. }
        split; [exact H |]. split; [now rewrite Hs |].
        rewrite Hs. apply (split_at_dash (String c b) r H).
Qed.

Lemma split_base_quote (b q rest : string) :
  dash_free b -> dash_free q ->
  rest = EmptyString \/ (exists more, rest = String "-" more) ->
  exists fields, split "-" (b ++ "-" ++ q ++ rest) = b :: q :: fields.
Proof.
  intros Hb Hq Hrest. cbn [append].
  rewrite (split_at_dash b (q ++ rest) Hb).
  destruct Hrest as [-> | [more ->]].
  - rewrite append_empty_r, (split_dash_free q Hq). now exists [].
  - rewrite (split_at_dash q more Hq). now exists (split "-" more).
Qed.

Lemma last_char_nonempty (s : string) :
  s <> EmptyString -> exists c, last_char s = Ret c.
Proof.
  induction s as [|c r IH]; [congruence |]. intros _.
  destruct r as [|d r']; [now exists c |].
  destruct IH as [x Hx]; [discriminate |]. exists x. exact Hx.
Qed.

Lemma last_char_sat p (s : string) c :
  all_chars p s = true -> last_char s = Ret c -> p c = true.
Proof.
  induction s as [|x r IH]; [discriminate |].
  cbn [all_chars]. intros H. apply andb_true_iff in H as [Hx Hr].
  destruct r as [|d r'].
  - cbn [last_char]. intros [= <-]. exact Hx.
  - intros Hl. apply (IH Hr). exact Hl.
Qed.

Lemma last_char_cases (s : string) :
  last_char s = Raise IndexError \/ exists c, last_char s = Ret c.
Proof.
  destruct s as [|c r]; [left; reflexivity | right].
  apply last_char_nonempty. discriminate.
Qed.

Lemma upper_nonempty (s : string) : s <> EmptyString -> upper s <> EmptyString.
Proof.
  destruct s; [congruence | discriminate].
Qed.

Lemma upper_empty (s : string) : upper s = EmptyString -> s = EmptyString.
Proof.
  destruct s; [reflexivity | discriminate].
Qed.

(** What the stem is once the first two fields of the split are known. *)
Lemma order_id_stem_fields prefix is_buy pair b q fields :
  split "-" pair = b :: q :: fields ->
  order_id_stem prefix is_buy pair
  = (base_last <- last_char (upper b) ;;
     quote_last <- last_char (upper q) ;;
     Ret (prefix ++ "-" ++ (if is_buy then "B" else "S")
          ++ (slice_to 4 (upper b) ++ String base_last EmptyString)
          ++ (slice_to 2 (upper q) ++ String quote_last EmptyString))).
Proof.
  intros H. unfold order_id_stem. rewrite H. reflexivity.
Qed.

Lemma order_id_stem_returns prefix is_buy pair :
  has_base_and_quote pair -> exists stem, order_id_stem prefix is_buy pair = Ret stem.
Proof.
  intros (b & q & rest & -> & Hb & Hbf & Hq & Hqf & Hrest).
  destruct (split_base_quote b q rest Hbf Hqf Hrest) as [fields Hsplit].
  rewrite (order_id_stem_fields prefix is_buy _ b q fields Hsplit).
  destruct (last_char_nonempty (upper b) (upper_nonempty b Hb)) as [bl ->].
  destruct (last_char_nonempty (upper q) (upper_nonempty q Hq)) as [ql ->].
  cbn [bind]. eexists. reflexivity.
Qed.

Lemma order_id_stem_raises prefix is_buy pair :
  ~ has_base_and_quote pair -> order_id_stem prefix is_buy pair = Raise IndexError.
Proof.
  intros Hno.
  destruct (split_shape pair) as [[_ Hs] | (b & r & Hb & -> & Hs)].
  - unfold order_id_stem. rewrite Hs. reflexivity.
  - assert (exists q rest fields,
               r = q ++ rest /\ dash_free q
               /\ (rest = EmptyString \/ exists more, rest = String "-" more)
               /\ split "-" r = q :: fields) as (q & rest & fields & Hr & Hq & Hrest & Hsr).
    { destruct (split_shape r) as [[Hfree Hsr] | (q & r' & Hq & Hr & Hsr)].
      - exists r, EmptyString, []. rewrite append_empty_r. auto.
      - exists q, (String "-" r'), (split "-" r'). repeat split; eauto. }
    rewrite Hsr in Hs.
    rewrite (order_id_stem_fields prefix is_buy _ b q fields Hs).
    destruct b as [|cb b'].
    + reflexivity.
    + destruct q as [|cq q'].
      * destruct (last_char_nonempty (upper (String cb b'))) as [bl ->];
          [discriminate | reflexivity].
      * exfalso. apply Hno.
        exists (String cb b'), (String cq q'), rest.
        repeat split; try discriminate; auto.
        rewrite Hr. reflexivity.
Qed.

Lemma dash_free_no_base_and_quote (pair : string) :
  dash_free pair -> ~ has_base_and_quote pair.
Proof.
  unfold dash_free. intros Hfree (b & q & rest & -> & _).
  rewrite any_char_app in Hfree. cbn in Hfree.
  now rewrite orb_true_r in Hfree.
Qed.

Lemma no_alpha_suffix (s : string) :
  any_char is_alpha s = false -> after_last_alpha s = s.
Proof.
  induction s as [|c r IH]; cbn [any_char after_last_alpha]; [reflexivity |].
  intros H. apply orb_false_iff in H as [Hc Hr]. now rewrite Hr, Hc.
Qed.

Lemma after_last_alpha_app (p t : string) (l : ascii) :
  is_alpha l = true -> any_char is_alpha t = false ->
  after_last_alpha (p ++ String l t) = t.
Proof.
  intros Hl Ht. induction p as [|c p IH]; cbn [append after_last_alpha].
  - now rewrite Ht, Hl.
  - rewrite any_char_app. cbn [any_char]. rewrite Hl, orb_true_r. exact IH.
Qed.

Lemma uint_no_alpha d : any_char is_alpha (NilEmpty.string_of_uint d) = false.
Proof.
  induction d; cbn [NilEmpty.string_of_uint any_char]; try rewrite IHd; reflexivity.
Qed.

Lemma str_of_int_no_alpha n : any_char is_alpha (str_of_int n) = false.
Proof.
  unfold str_of_int.
  destruct (Z.to_int n) as [d | d]; cbn [NilZero.string_of_int any_char];
    destruct d; try reflexivity;
    try (apply (uint_no_alpha (_ d)));
    try (cbn [orb is_alpha]; apply (uint_no_alpha (_ d))).
Qed.

Lemma to_int_proper n : Z.to_int n <> Pos Nil /\ Z.to_int n <> Neg Nil.
Proof.
  destruct n as [| p | p]; cbn [Z.to_int]; split; try discriminate;
    intros [= H]; exact (DecimalPos.Unsigned.to_uint_nonnil p H).
Qed.

Lemma str_of_int_parses n :
  option_map Z.of_int (NilZero.int_of_string (str_of_int n)) = Some n.
Proof.
  unfold str_of_int. destruct (to_int_proper n) as [Hp Hn].
  rewrite (NilZero.isi _ Hp Hn). cbn [option_map].
  now rewrite DecimalZ.of_to.
Qed.

Lemma str_of_int_inj a b : str_of_int a = str_of_int b -> a = b.
Proof.
  intros H. pose proof (str_of_int_parses a) as Ha.
  rewrite H, str_of_int_parses in Ha. now injection Ha.
Qed.

(** The stem of an id for a pair of alphabetic asset codes ends in a letter. *)
Lemma order_id_stem_alphabetic prefix is_buy B Q :
  alphabetic B -> alphabetic Q ->
  exists body l,
    order_id_stem prefix is_buy (B ++ "-" ++ Q) = Ret (body ++ String l EmptyString)
    /\ is_alpha l = true.
Proof.
  intros [HB HBa] [HQ HQa].
  destruct (split_base_quote B Q EmptyString (alpha_dash_free B HBa)
              (alpha_dash_free Q HQa) (or_introl eq_refl)) as [fields Hsplit].
  rewrite append_empty_r in Hsplit.
  rewrite (order_id_stem_fields prefix is_buy _ B Q fields Hsplit).
  destruct (last_char_nonempty (upper B) (upper_nonempty B HB)) as [bl ->].
  destruct (last_char_nonempty (upper Q) (upper_nonempty Q HQ)) as [ql Hql].
  rewrite Hql. cbn [bind].
  exists (prefix ++ "-" ++ (if is_buy then "B" else "S")
          ++ (slice_to 4 (upper B) ++ String bl EmptyString) ++ slice_to 2 (upper Q)), ql.
  split.
  - now rewrite !append_assoc.
  - apply (last_char_sat is_alpha (upper Q)); [| exact Hql].
    apply (all_chars_map is_alpha is_alpha); [exact upper_char_alpha | exact HQa].
Qed.

(** C5, as stated, fails: whatever the broker prefix and the nonce, the id
    for [ETH-BTC] does not continue with [ETC] after [ETHH]. *)
Lemma order_id_eth_btc_has_no_ETC_fragment :
  ~ exists (prefix : string) (NonceSource : Type)
           (get_tracking_nonce : NonceSource -> Z * NonceSource)
           (src : NonceSource) (digits : string),
      fst (get_new_client_order_id prefix get_tracking_nonce true "ETH-BTC" src)
      = Ret (prefix ++ "-B" ++ "ETHH" ++ "ETC" ++ digits).
Proof.
  intros (prefix & NS & get & src & digits & H).
  unfold get_new_client_order_id in H.
  change (order_id_stem prefix true "ETH-BTC") with (Ret (prefix ++ "-BETHHBTC")) in H.
  destruct (get src) as [n src']. cbn [fst] in H.
  injection H as H. rewrite append_assoc in H.
  apply append_inv_head in H. discriminate H.
Qed.

(** C5, amended.  [get_new_client_order_id(True, "ETH-BTC")] is the broker
    prefix, [-B], the base fragment [ETHH], the quote fragment [BTC] (first
    two characters and last character of [BTC]) and the drawn nonce as a
    decimal numeral; the nonce source advances by that one draw. *)
Theorem order_id_eth_btc :
  forall (prefix : string) (NonceSource : Type)
         (get_tracking_nonce : NonceSource -> Z * NonceSource) (src : NonceSource),
    get_new_client_order_id prefix get_tracking_nonce true "ETH-BTC" src
    = (Ret (prefix ++ "-B" ++ "ETHH" ++ "BTC" ++ str_of_int (fst (get_tracking_nonce src))),
       snd (get_tracking_nonce src))
    /\ option_map Z.of_int
         (NilZero.int_of_string (str_of_int (fst (get_tracking_nonce src))))
       = Some (fst (get_tracking_nonce src)).
Proof.
  intros prefix NS get src. split; [| apply str_of_int_parses].
  unfold get_new_client_order_id.
  change (order_id_stem prefix true "ETH-BTC") with (Ret (prefix ++ "-BETHHBTC")).
  destruct (get src) as [n src']. cbn [fst snd].
  now rewrite append_assoc.
Qed.

Example ex_order_id :
  fst (get_new_client_order_id "HBOT" counter_nonce true "ETH-BTC" 1609459200000000%Z)
  = Ret "HBOT-BETHHBTC1609459200000001".
Proof. vm_compute. reflexivity. Qed.

(** C6.  Two invocations on pairs of non-empty alphabetic asset codes both
    return an id, and when the nonces they draw differ the ids differ,
    whatever the sides and pairs. *)
Theorem distinct_nonces_give_distinct_ids :
  forall (prefix : string) (NonceSource : Type)
         (get_tracking_nonce : NonceSource -> Z * NonceSource)
         (is_buy1 is_buy2 : bool) (B1 Q1 B2 Q2 : string) (src1 src2 : NonceSource),
    alphabetic B1 -> alphabetic Q1 -> alphabetic B2 -> alphabetic Q2 ->
    fst (get_tracking_nonce src1) <> fst (get_tracking_nonce src2) ->
    exists id1 id2,
      fst (get_new_client_order_id prefix get_tracking_nonce is_buy1 (B1 ++ "-" ++ Q1) src1)
        = Ret id1
      /\ fst (get_new_client_order_id prefix get_tracking_nonce is_buy2 (B2 ++ "-" ++ Q2) src2)
        = Ret id2
      /\ id1 <> id2.
Proof.
  intros prefix NS get s1 s2 B1 Q1 B2 Q2 src1 src2 HB1 HQ1 HB2 HQ2 Hne.
  destruct (order_id_stem_alphabetic prefix s1 B1 Q1 HB1 HQ1) as (p1 & l1 & E1 & A1).
  destruct (order_id_stem_alphabetic prefix s2 B2 Q2 HB2 HQ2) as (p2 & l2 & E2 & A2).
  unfold get_new_client_order_id. rewrite E1, E2.
  destruct (get src1) as [n1 src1']. destruct (get src2) as [n2 src2'].
  cbn [fst] in *.
  do 2 eexists. split; [reflexivity |]. split; [reflexivity |].
  intros Heq. apply Hne. apply str_of_int_inj.
  apply (f_equal after_last_alpha) in Heq.
  rewrite !append_assoc in Heq. cbn [append] in Heq.
  rewrite (after_last_alpha_app p1 _ l1 A1 (str_of_int_no_alpha n1)) in Heq.
  rewrite (after_last_alpha_app p2 _ l2 A2 (str_of_int_no_alpha n2)) in Heq.
  exact Heq.
Qed.

Lemma distinct_ids_eth_btc :
  exists id1 id2,
    fst (get_new_client_order_id "HBOT" counter_nonce true ("ETH" ++ "-" ++ "BTC") 7%Z)
      = Ret id1
    /\ fst (get_new_client_order_id "HBOT" counter_nonce false ("LTC" ++ "-" ++ "USDT") 8%Z)
      = Ret id2
    /\ id1 <> id2.
Proof.
  apply (distinct_nonces_give_distinct_ids "HBOT" Z counter_nonce true false
           "ETH" "BTC" "LTC" "USDT" 7%Z 8%Z);
    try (split; [discriminate | reflexivity]).
  vm_compute. discriminate.
Defined.

(** Without the restriction to letters two different nonces can give the
    same id: the digits of the quote code run into the digits of the nonce. *)
Example ex_digits_collide :
  fst (get_new_client_order_id "HBOT" counter_nonce true "A-1" 14%Z)
  = fst (get_new_client_order_id "HBOT" counter_nonce true "A-11" 4%Z).
Proof. vm_compute. reflexivity. Qed.

(** C10.  [get_new_client_order_id] returns an id exactly for the trading
    pairs with a non-empty base and a non-empty quote component; on every
    other string it raises [IndexError] and draws no nonce: a string with
    no [-], a string that starts with [-] (empty base), and a base followed
    by [-] and then nothing or another [-] (empty quote). *)
Theorem order_id_total_exactly_on_base_and_quote :
  forall (prefix : string) (NonceSource : Type)
         (get_tracking_nonce : NonceSource -> Z * NonceSource)
         (is_buy : bool) (trading_pair : string) (src : NonceSource),
    let result := get_new_client_order_id prefix get_tracking_nonce is_buy trading_pair src in
    (has_base_and_quote trading_pair -> exists id, fst result = Ret id)
    /\ (~ has_base_and_quote trading_pair -> result = (Raise IndexError, src))
    /\ (dash_free trading_pair -> result = (Raise IndexError, src))
    /\ ((exists rest, trading_pair = String "-" rest) -> result = (Raise IndexError, src))
    /\ ((exists base, dash_free base /\ trading_pair = base ++ "-") ->
        result = (Raise IndexError, src))
    /\ ((exists base rest, dash_free base /\ trading_pair = base ++ "--" ++ rest) ->
        result = (Raise IndexError, src)).
Proof.
  intros prefix NS get is_buy pair src result.
  assert (~ has_base_and_quote pair -> result = (Raise IndexError, src)) as Hraise.
  { intros Hno. unfold result, get_new_client_order_id.
    now rewrite (order_id_stem_raises prefix is_buy pair Hno). }
  split; [| split; [exact Hraise |]].
  - intros Hok. unfold result, get_new_client_order_id.
    destruct (order_id_stem_returns prefix is_buy pair Hok) as [stem ->].
    destruct (get src) as [n src']. eexists. reflexivity.
  - split; [| split; [| split]].
    + intros Hfree. apply Hraise. now apply dash_free_no_base_and_quote.
    + intros [rest ->]. unfold result, get_new_client_order_id.
      destruct (split "-" rest) as [| q fields] eqn:E;
        [destruct (split_nonempty _ _ E) |].
      assert (split "-" (String "-" rest) = EmptyString :: q :: fields) as Hs
        by (rewrite <- E; reflexivity).
      now rewrite (order_id_stem_fields prefix is_buy _ EmptyString q fields Hs).
    + intros (base & Hb & ->). unfold result, get_new_client_order_id.
      assert (split "-" (base ++ "-") = [base; EmptyString]) as Hs
        by (rewrite (split_at_dash base EmptyString Hb); reflexivity).
      rewrite (order_id_stem_fields prefix is_buy _ base EmptyString [] Hs).
      destruct (last_char_cases (upper base)) as [-> | [c ->]]; reflexivity.
    + intros (base & rest & Hb & ->). unfold result, get_new_client_order_id.
      assert (split "-" (base ++ "--" ++ rest) = base :: EmptyString :: split "-" rest) as Hs
        by (cbn [append]; rewrite (split_at_dash base _ Hb); reflexivity).
      rewrite (order_id_stem_fields prefix is_buy _ base EmptyString _ Hs).
      destruct (last_char_cases (upper base)) as [-> | [c ->]]; reflexivity.
Qed.

Lemma order_id_total_on_eth_btc :
  (has_base_and_quote "ETH-BTC"
   /\ exists id, fst (get_new_client_order_id "HBOT" counter_nonce true "ETH-BTC" 0%Z) = Ret id)
  /\ (dash_free "ETHBTC"
      /\ get_new_client_order_id "HBOT" counter_nonce true "ETHBTC" 0%Z
         = (Raise IndexError, 0%Z)).
Proof.
  assert (has_base_and_quote "ETH-BTC") as Hok.
  { exists "ETH", "BTC", EmptyString.
    repeat split; try discriminate. left. reflexivity. }
  assert (dash_free "ETHBTC") as Hfree by reflexivity.
  refine (conj (conj Hok _) (conj Hfree _)).
  - exact (proj1 (order_id_total_exactly_on_base_and_quote
                    "HBOT" Z counter_nonce true "ETH-BTC" 0%Z) Hok).
  - exact (proj1 (proj2 (proj2 (order_id_total_exactly_on_base_and_quote
                    "HBOT" Z counter_nonce true "ETHBTC" 0%Z))) Hfree).
Defined.

Example ex_order_id_double_dash :
  get_new_client_order_id "HBOT" counter_nonce true "ETH--BTC" 0%Z = (Raise IndexError, 0%Z).
Proof. reflexivity. Qed.

(** ** Response normalizer *)

Lemma has_key_In key (entries : list (string * value)) :
  has_key key entries = true <-> In key (map fst entries).
Proof.
  unfold has_key. rewrite existsb_exists, in_map_iff. split.
  - intros [kv [Hin Hk]]. apply String.eqb_eq in Hk. now exists kv.
  - intros [kv [Hk Hin]]. exists kv. split; [exact Hin | now apply String.eqb_eq].
Qed.

Lemma keeps_skip : keeps_status skip.
Proof. intros l. reflexivity. Qed.

Lemma keeps_seq s1 s2 : keeps_status s1 -> keeps_status s2 -> keeps_status (s1 ;;; s2).
Proof.
  intros H1 H2 l. unfold seq. specialize (H1 l).
  destruct (s1 l) as [l' [u | e]]; cbn [fst] in *; [| exact H1].
  now rewrite H2.
Qed.

Lemma keeps_try s1 s2 : keeps_status s1 -> keeps_status s2 -> keeps_status (try_stmt s1 s2).
Proof.
  intros H1 H2 l. unfold try_stmt. specialize (H1 l).
  destruct (s1 l) as [l' [u | e]]; cbn [fst] in *; [exact H1 |].
  now rewrite H2.
Qed.

Lemma keeps_if c s1 s2 : keeps_status s1 -> keeps_status s2 -> keeps_status (if_stmt c s1 s2).
Proof.
  intros H1 H2 l. unfold if_stmt. destruct (c l); auto.
Qed.

Lemma keeps_assign {A : Type} (e : Locals -> exc A) (set : A -> Locals -> Locals) :
  (forall a l, http_status (set a l) = http_status l) -> keeps_status (assign_from e set).
Proof.
  intros H l. unfold assign_from. destruct (e l); cbn [fst]; auto.
Qed.

Lemma keeps_parse_body response : keeps_status (parse_body response).
Proof.
  unfold parse_body, read_raw_body.
  apply keeps_try; [apply keeps_assign; reflexivity |].
  apply keeps_seq; [apply keeps_assign; reflexivity |].
  apply keeps_try; [| apply keeps_skip].
  apply keeps_seq; [apply keeps_assign; reflexivity |].
  apply keeps_if; [apply keeps_assign; reflexivity | apply keeps_skip].
Qed.

Lemma keeps_classify response : keeps_status (classify response).
Proof.
  intros l. unfold classify.
  destruct (TempFailure response l) as [[|] | e]; reflexivity.
Qed.

(** Whatever the response does, handling it leaves the status recorded. *)
Lemma handle_response_records_status response l :
  http_status (fst (handle_response response l)) = Some (status response).
Proof.
  unfold handle_response.
  change ((assign_from (fun _ => Ret (status response)) set_http_status ;;;
           parse_body response ;;; classify response) l)
    with ((parse_body response ;;; classify response)
            (set_http_status (status response) l)).
  rewrite (keeps_seq _ _ (keeps_parse_body response) (keeps_classify response)).
  reflexivity.
Qed.

(** In the model without signals, [aiohttp_response_with_errors] returns a
    triple for every request; when entering the request raises the triple
    is [(None, None, True)]; once a response was obtained the triple carries
    its status. *)
Theorem aiohttp_response_never_raises :
  forall request : RequestContext,
    (exists triple, aiohttp_response_with_errors request = Ret triple)
    /\ (forall e, aenter request = Raise e ->
                  aiohttp_response_with_errors request = Ret (None, VNone, true))
    /\ (forall response, aenter request = Ret response ->
          exists body errors,
            aiohttp_response_with_errors request = Ret (Some (status response), body, errors)).
Proof.
  intros request. unfold aiohttp_response_with_errors, try_stmt, async_with, assign_from.
  destruct (aenter request) as [response | e0] eqn:Eenter.
  - pose proof (handle_response_records_status response
                  {| http_status := None; parsed_response := VNone; request_errors := false |})
      as Hst.
    destruct (handle_response response _) as [l [u | e]]; cbn [fst] in Hst.
    + destruct (aexit request None) as [b | e']; cbn;
        (split; [eexists; reflexivity | split; [discriminate |]]);
        intros r [= <-]; rewrite Hst; eauto.
    + destruct (aexit request (Some e)) as [[|] | e']; cbn;
        (split; [eexists; reflexivity | split; [discriminate |]]);
        intros r [= <-]; rewrite Hst; eauto.
  - cbn. split; [eexists; reflexivity |]. split; [reflexivity | discriminate].
Qed.

Lemma aiohttp_response_refused :
  aenter (refused (Fault "ServerDisconnectedError")) = Raise (Fault "ServerDisconnectedError")
  /\ aiohttp_response_with_errors (refused (Fault "ServerDisconnectedError"))
     = Ret (None, VNone, true).
Proof.
  split; [reflexivity |].
  exact (proj1 (proj2 (aiohttp_response_never_raises (refused (Fault "ServerDisconnectedError"))))
           (Fault "ServerDisconnectedError") eq_refl).
Defined.

(** C4, as stated, fails: when both reads raise, the body handed back is
    the reason phrase of the response, not [None]. *)
Lemma unreadable_body_is_not_none :
  json unreadable_500 = Raise (Fault "ContentTypeError")
  /\ read unreadable_500 = Raise (Fault "ClientPayloadError")
  /\ aiohttp_response_with_errors (completed unreadable_500)
     <> Ret (Some (status unreadable_500), VNone, true).
Proof.
  split; [reflexivity | split; [reflexivity |]].
  vm_compute. discriminate.
Qed.

(** C4, amended.  When decoding the body raises and reading the raw body
    raises too, the triple is the status of the response, its reason phrase
    as the body ([None] only if the response has no reason phrase), and the
    errors flag set. *)
Theorem unreadable_body_gives_reason :
  forall (request : RequestContext) (response : ClientResponse) (e1 e2 : exn),
    aenter request = Ret response ->
    json response = Raise e1 ->
    read response = Raise e2 ->
    aiohttp_response_with_errors request
    = Ret (Some (status response), option_value (reason response), true).
Proof.
  intros request response e1 e2 Henter Hjson Hread.
  unfold aiohttp_response_with_errors, try_stmt, async_with.
  rewrite Henter.
  unfold handle_response, parse_body, classify, seq, try_stmt, assign_from,
    read_raw_body, try_stmt, seq, assign_from, TempFailure.
  rewrite Hjson, Hread. cbn.
  destruct (aexit request None) as [b | e]; reflexivity.
Qed.

Lemma unreadable_500_gives_reason :
  aiohttp_response_with_errors (completed unreadable_500)
  = Ret (Some 500%Z, VStr "Internal Server Error", true).
Proof.
  exact (unreadable_body_gives_reason (completed unreadable_500) unreadable_500
           (Fault "ContentTypeError") (Fault "ClientPayloadError")
           eq_refl eq_refl eq_refl).
Defined.

(** The triple for a request that completes with a JSON object as body. *)
Lemma aiohttp_response_object request response entries b :
  aenter request = Ret response ->
  aexit request None = Ret b ->
  json response = Ret (VDict entries) ->
  aiohttp_response_with_errors request
  = Ret (Some (status response), VDict entries,
         negb (Z.eqb (status response) 200 || Z.eqb (status response) 201)
         && negb (has_key "error" entries)).
Proof.
  intros Henter Hexit Hjson.
  unfold aiohttp_response_with_errors, try_stmt, async_with.
  rewrite Henter.
  unfold handle_response, parse_body, classify, seq, try_stmt, assign_from, TempFailure.
  rewrite Hjson. cbn.
  destruct (Z.eqb (status response) 200 || Z.eqb (status response) 201); cbn.
  - now rewrite Hexit.
  - destruct (has_key "error" entries); cbn; now rewrite Hexit.
Qed.

(** The triple for a request that completes with the JSON value [null]. *)
Lemma aiohttp_response_null request response b :
  aenter request = Ret response ->
  aexit request None = Ret b ->
  json response = Ret VNone ->
  aiohttp_response_with_errors request
  = Ret (Some (status response), option_value (reason response), true).
Proof.
  intros Henter Hexit Hjson.
  unfold aiohttp_response_with_errors, try_stmt, async_with.
  rewrite Henter.
  unfold handle_response, parse_body, classify, seq, try_stmt, assign_from, TempFailure.
  rewrite Hjson. cbn. now rewrite Hexit.
Qed.

Lemma success_status_In (z : Z) :
  Z.eqb z 200 || Z.eqb z 201 = true <-> In z [200; 201]%Z.
Proof.
  rewrite orb_true_iff, !Z.eqb_eq. cbn [In]. intuition congruence.
Qed.

(** C2.  When the request completes and the body decodes to structured
    JSON, the errors flag is set exactly when the body is [None], or the
    status is neither 200 nor 201 and the body has no [error] member.  In
    particular a body with an [error] member is handed back unchanged with
    the flag clear, whatever the status. *)
Theorem structured_body_errors_flag :
  forall (request : RequestContext) (response : ClientResponse) (v : value) (b : bool),
    aenter request = Ret response ->
    aexit request None = Ret b ->
    json response = Ret v ->
    structured v ->
    exists body errors,
      aiohttp_response_with_errors request = Ret (Some (status response), body, errors)
      /\ (errors = true <->
          v = VNone \/ (~ In (status response) [200; 201]%Z /\ ~ has_error_field v))
      /\ (has_error_field v -> errors = false /\ body = v).
Proof.
  intros request response v b Henter Hexit Hjson [-> | [entries ->]].
  - rewrite (aiohttp_response_null request response b Henter Hexit Hjson).
    do 2 eexists. split; [reflexivity |]. split.
    + split; auto.
    + intros (entries & Hv & _). discriminate Hv.
  - rewrite (aiohttp_response_object request response entries b Henter Hexit Hjson).
    do 2 eexists. split; [reflexivity |].
    assert (has_error_field (VDict entries) <-> has_key "error" entries = true) as Hfield.
    { rewrite has_key_In. split.
      - intros (d & [= <-] & Hin). exact Hin.
      - intros Hin. now exists entries. }
    split.
    + rewrite andb_true_iff, !negb_true_iff, Hfield.
      rewrite <- success_status_In. split.
      * intros [Hs Hk]. right. split; congruence.
      * intros [Hv | [Hs Hk]]; [discriminate Hv |].
        split; [now apply not_true_is_false | now apply not_true_is_false].
    + intros Hf. apply Hfield in Hf. rewrite Hf.
      split; [apply andb_false_r | reflexivity].
Qed.

Lemma error_500_is_not_flagged :
  has_error_field (VDict [("error", VStr "insufficient balance")])
  /\ exists body errors,
       aiohttp_response_with_errors (completed error_500) = Ret (Some 500%Z, body, errors)
       /\ (errors = true <->
           VDict [("error", VStr "insufficient balance")] = VNone
           \/ (~ In 500%Z [200; 201]%Z
               /\ ~ has_error_field (VDict [("error", VStr "insufficient balance")])))
       /\ (has_error_field (VDict [("error", VStr "insufficient balance")]) ->
           errors = false /\ body = VDict [("error", VStr "insufficient balance")]).
Proof.
  split.
  - eexists. split; [reflexivity | left; reflexivity].
  - apply (structured_body_errors_flag (completed error_500) error_500
             (VDict [("error", VStr "insufficient balance")]) false eq_refl eq_refl eq_refl).
    right. eexists. reflexivity.
Defined.

Example ex_response_ok :
  aiohttp_response_with_errors
    (completed {| status := 200; reason := Some "OK";
                  json := Ret (VDict [("result", VInt 1)]); read := Ret "{}" |})
  = Ret (Some 200%Z, VDict [("result", VInt 1)], false).
Proof. reflexivity. Qed.

Example ex_response_500 :
  aiohttp_response_with_errors
    (completed {| status := 500; reason := Some "Internal Server Error";
                  json := Ret (VDict [("msg", VStr "fail")]); read := Ret "{}" |})
  = Ret (Some 500%Z, VDict [("msg", VStr "fail")], true).
Proof. reflexivity. Qed.

Example ex_response_raw_text :
  aiohttp_response_with_errors
    (completed {| status := 200; reason := Some "OK";
                  json := Raise (Fault "ContentTypeError"); read := Ret "oops" |})
  = Ret (Some 200%Z, VStr "b'oops'", true).
Proof. reflexivity. Qed.

(* ===================================================================== *)
(** * Further properties *)
(* ===================================================================== *)

(** ** Symbol codec *)

Lemma upper_char_dash c : Ascii.eqb (upper_char c) "-" = Ascii.eqb c "-".
Proof. by_char_cases c. Qed.

Lemma lower_char_is_dash c : Ascii.eqb (lower_char c) "-" = Ascii.eqb c "-".
Proof. by_char_cases c. Qed.

Lemma lower_upper_char_any c : lower_char (upper_char c) = lower_char c.
Proof. by_char_cases c. Qed.

Lemma upper_lower_char_any c : upper_char (lower_char c) = upper_char c.
Proof. by_char_cases c. Qed.

Lemma lower_char_fixed c : is_upper c = false -> lower_char c = c.
Proof. by_char_cases c. Qed.

(** X1.  [convert_from_exchange_trading_pair] returns [None] whenever the
    pattern does not match, raises, or lacks a second group; it returns the
    upper-cased groups joined by a dash when both are present; and it raises
    [AttributeError] when the pattern matched but group 1 or 2 took no part
    in the match: the handler of [split_trading_pair] does not cover the
    call of [upper]. *)
Theorem convert_from_cases :
  forall (splitter : string -> exc (option re_match)) (s : string),
    convert_from_exchange_trading_pair splitter s
    = match splitter s with
      | Ret (Some m) =>
          match groups m with
          | Some b :: Some q :: _ => Ret (Some (upper b ++ "-" ++ upper q))
          | _ :: _ :: _ => Raise AttributeError
          | _ => Ret None
          end
      | Ret None => Ret None
      | Raise _ => Ret None
      end.
Proof.
  intros splitter s.
  unfold convert_from_exchange_trading_pair, split_trading_pair.
  destruct (splitter s) as [[m |] | e]; cbn; try reflexivity.
  destruct (groups m) as [| [b |] [| [q |] more]]; reflexivity.
Qed.

Lemma exchange_symbol_parts (b q : string) :
  exchange_symbol (b ++ q) ->
  (dash_free b /\ dash_free q) /\ (lower b = b /\ lower q = q).
Proof.
  unfold exchange_symbol. rewrite all_chars_app, andb_true_iff.
  assert (forall s, all_chars (fun c => negb (is_upper c) && negb (Ascii.eqb c "-")) s = true ->
                    dash_free s /\ lower s = s) as Hone.
  { unfold dash_free, lower. induction s as [|c r IH]; cbn [all_chars any_char map_chars].
    - auto.
    - rewrite !andb_true_iff, !negb_true_iff. intros [[Hu Hd] Hr].
      destruct (IH Hr) as [Hfree Hlow].
      rewrite Ascii.eqb_sym, Hd, Hfree, Hlow, (lower_char_fixed c Hu). auto. }
  intros [Hb Hq]. destruct (Hone b Hb), (Hone q Hq). auto.
Qed.

Lemma upper_keeps_dash_free (s : string) : dash_free s -> dash_free (upper s).
Proof.
  unfold dash_free, upper. induction s as [|c r IH]; cbn [any_char map_chars]; [auto |].
  intros H. apply orb_false_iff in H as [Hc Hr].
  rewrite (Ascii.eqb_sym "-" (upper_char c)), upper_char_dash, Ascii.eqb_sym, Hc.
  now rewrite (IH Hr).
Qed.

Lemma lower_upper_any (s : string) : lower (upper s) = lower s.
Proof.
  unfold lower, upper. induction s as [|c r IH]; cbn [map_chars]; [reflexivity |].
  now rewrite lower_upper_char_any, IH.
Qed.

Lemma upper_lower_any (s : string) : upper (lower s) = upper s.
Proof.
  unfold lower, upper. induction s as [|c r IH]; cbn [map_chars]; [reflexivity |].
  now rewrite upper_lower_char_any, IH.
Qed.

Lemma upper_idem (s : string) : upper (upper s) = upper s.
Proof.
  rewrite <- (upper_lower_any (upper s)), lower_upper_any. apply upper_lower_any.
Qed.

(** X2.  Exchange symbol, to canonical pair, and back, on ASCII text: when
    the pattern splits an ASCII exchange symbol (no upper-case letter, no
    dash) into two groups that together are the whole symbol, converting it
    to the canonical form and back returns the symbol. *)
Theorem exchange_symbol_roundtrip :
  forall (splitter : string -> exc (option re_match)) (s b q : string),
    ascii_text s ->
    exchange_symbol s ->
    split_trading_pair splitter s = Ret (Some (Some b, Some q)) ->
    b ++ q = s ->
    exists pair,
      convert_from_exchange_trading_pair splitter s = Ret (Some pair)
      /\ convert_to_exchange_trading_pair pair = s.
Proof.
  intros splitter s b q _ Hsym Hsplit Hcat.
  exists (upper b ++ "-" ++ upper q). split.
  - unfold convert_from_exchange_trading_pair. rewrite Hsplit. reflexivity.
  - subst s. destruct (exchange_symbol_parts b q Hsym) as [[Hb Hq] [Hlb Hlq]].
    unfold convert_to_exchange_trading_pair.
    rewrite replace_app. cbn [append replace Ascii.eqb Bool.eqb].
    rewrite (replace_dash_free _ (upper_keeps_dash_free b Hb)).
    rewrite (replace_dash_free _ (upper_keeps_dash_free q Hq)).
    unfold lower at 1. rewrite map_chars_app. fold (lower (upper b)) (lower (upper q)).
    now rewrite !lower_upper_any, Hlb, Hlq.
Qed.

Lemma exchange_symbol_roundtrip_ethbtc :
  (ascii_text "ethbtc" /\ exchange_symbol "ethbtc")
  /\ exists pair,
       convert_from_exchange_trading_pair eth_btc_pattern "ethbtc" = Ret (Some pair)
       /\ convert_to_exchange_trading_pair pair = "ethbtc".
Proof.
  split; [split; reflexivity |].
  exact (exchange_symbol_roundtrip eth_btc_pattern "ethbtc" "eth" "btc"
           eq_refl eq_refl eq_refl eq_refl).
Defined.

(** X3.  On ASCII text [convert_to_exchange_trading_pair] works piece by
    piece: the symbol of a concatenation is the concatenation of the
    symbols. *)
Theorem convert_to_app :
  forall a b : string,
    ascii_text a -> ascii_text b ->
    convert_to_exchange_trading_pair (a ++ b)
    = convert_to_exchange_trading_pair a ++ convert_to_exchange_trading_pair b.
Proof.
  intros a b _ _. unfold convert_to_exchange_trading_pair, lower.
  now rewrite replace_app, map_chars_app.
Qed.

Lemma convert_to_app_example :
  (ascii_text "ETH-" /\ ascii_text "BTC")
  /\ convert_to_exchange_trading_pair ("ETH-" ++ "BTC")
     = convert_to_exchange_trading_pair "ETH-" ++ convert_to_exchange_trading_pair "BTC".
Proof.
  split; [split; reflexivity |].
  exact (convert_to_app "ETH-" "BTC" eq_refl eq_refl).
Defined.

Lemma convert_to_map f (p : string) :
  (forall c, Ascii.eqb (f c) "-" = Ascii.eqb c "-") ->
  (forall c, lower_char (f c) = lower_char c) ->
  convert_to_exchange_trading_pair (map_chars f p) = convert_to_exchange_trading_pair p.
Proof.
  intros Hdash Hlow. unfold convert_to_exchange_trading_pair, lower.
  induction p as [|c r IH]; cbn [map_chars replace]; [reflexivity |].
  rewrite Hdash. destruct (Ascii.eqb c "-"); cbn [append map_chars].
  - exact IH.
  - now rewrite Hlow, IH.
Qed.

(** X4.  The exchange symbol does not depend on the letter case of the
    pair handed in: the upper-cased and the lower-cased pair give the same
    symbol as the pair itself. *)
Theorem convert_to_ignores_case :
  forall p : string,
    convert_to_exchange_trading_pair (upper p) = convert_to_exchange_trading_pair p
    /\ convert_to_exchange_trading_pair (lower p) = convert_to_exchange_trading_pair p.
Proof.
  intros p. split.
  - apply convert_to_map; [exact upper_char_dash | exact lower_upper_char_any].
  - apply convert_to_map; [exact lower_char_is_dash | exact lower_char_idem].
Qed.

(** ** Order id generator *)

Lemma split_map_chars f (s : string) :
  (forall c, Ascii.eqb (f c) "-" = Ascii.eqb c "-") ->
  split "-" (map_chars f s) = map (map_chars f) (split "-" s).
Proof.
  intros Hdash. induction s as [|c r IH]; cbn [map_chars split]; [reflexivity |].
  rewrite Hdash, IH. destruct (Ascii.eqb c "-"); [reflexivity |].
  destruct (split "-" r) as [| field fields] eqn:E; [| reflexivity].
  destruct (split_nonempty _ _ E).
Qed.

Lemma list_index_map {A B : Type} (f : A -> B) (l : list A) (i : nat) :
  list_index (map f l) i
  = match list_index l i with
    | Ret a => Ret (f a)
    | Raise e => Raise e
    end.
Proof.
  unfold list_index. rewrite nth_error_map.
  destruct (nth_error l i); reflexivity.
Qed.

Lemma order_id_stem_map prefix is_buy f (pair : string) :
  (forall c, Ascii.eqb (f c) "-" = Ascii.eqb c "-") ->
  (forall s, upper (map_chars f s) = upper s) ->
  order_id_stem prefix is_buy (map_chars f pair) = order_id_stem prefix is_buy pair.
Proof.
  intros Hdash Hup. unfold order_id_stem.
  rewrite (split_map_chars f pair Hdash), !list_index_map.
  destruct (list_index (split "-" pair) 0) as [base |]; cbn [bind]; [| reflexivity].
  destruct (list_index (split "-" pair) 1) as [quote |]; cbn [bind]; [| reflexivity].
  now rewrite !Hup.
Qed.

(** X5.  For an ASCII trading pair the order id does not depend on the
    letter case: the lower-cased and the upper-cased pair give the same
    outcome (the same id, or the same exception) as the pair itself. *)
Theorem order_id_ignores_case :
  forall (prefix : string) (NonceSource : Type)
         (get_tracking_nonce : NonceSource -> Z * NonceSource)
         (is_buy : bool) (trading_pair : string) (src : NonceSource),
    ascii_text trading_pair ->
    get_new_client_order_id prefix get_tracking_nonce is_buy (lower trading_pair) src
    = get_new_client_order_id prefix get_tracking_nonce is_buy trading_pair src
    /\ get_new_client_order_id prefix get_tracking_nonce is_buy (upper trading_pair) src
       = get_new_client_order_id prefix get_tracking_nonce is_buy trading_pair src.
Proof.
  intros prefix NS get is_buy pair src _. unfold get_new_client_order_id, lower, upper.
  rewrite (order_id_stem_map prefix is_buy lower_char pair lower_char_is_dash upper_lower_any).
  rewrite (order_id_stem_map prefix is_buy upper_char pair upper_char_dash upper_idem).
  split; reflexivity.
Qed.

Lemma order_id_ignores_case_example :
  ascii_text "Eth-Btc"
  /\ get_new_client_order_id "HBOT" counter_nonce true (lower "Eth-Btc") 0%Z
     = get_new_client_order_id "HBOT" counter_nonce true "Eth-Btc" 0%Z
  /\ get_new_client_order_id "HBOT" counter_nonce true (upper "Eth-Btc") 0%Z
     = get_new_client_order_id "HBOT" counter_nonce true "Eth-Btc" 0%Z.
Proof.
  split; [reflexivity |].
  exact (order_id_ignores_case "HBOT" Z counter_nonce true "Eth-Btc" 0%Z eq_refl).
Defined.

(** X6.  Only the first two dash-separated fields count: whatever follows
    a second dash does not change the outcome. *)
Theorem order_id_ignores_later_fields :
  forall (prefix : string) (NonceSource : Type)
         (get_tracking_nonce : NonceSource -> Z * NonceSource)
         (is_buy : bool) (base quote rest : string) (src : NonceSource),
    dash_free base -> dash_free quote ->
    get_new_client_order_id prefix get_tracking_nonce is_buy
      (base ++ "-" ++ quote ++ "-" ++ rest) src
    = get_new_client_order_id prefix get_tracking_nonce is_buy (base ++ "-" ++ quote) src.
Proof.
  intros prefix NS get is_buy base quote rest src Hb Hq.
  assert (rest_cases : forall tail, tail = EmptyString \/ tail = String "-" rest ->
            exists fields, split "-" (base ++ "-" ++ quote ++ tail) = base :: quote :: fields).
  { intros tail Htail. apply split_base_quote; auto.
    destruct Htail as [-> | ->]; [left; reflexivity | right; now exists rest]. }
  destruct (rest_cases (String "-" rest) (or_intror eq_refl)) as [f1 H1].
  destruct (rest_cases EmptyString (or_introl eq_refl)) as [f2 H2].
  rewrite append_empty_r in H2.
  unfold get_new_client_order_id.
  change ("-" ++ rest) with (String "-" rest).
  now rewrite (order_id_stem_fields prefix is_buy _ base quote f1 H1),
    (order_id_stem_fields prefix is_buy _ base quote f2 H2).
Qed.

Lemma order_id_ignores_later_fields_example :
  (dash_free "ETH" /\ dash_free "BTC")
  /\ get_new_client_order_id "HBOT" counter_nonce true ("ETH" ++ "-" ++ "BTC" ++ "-" ++ "PERP") 0%Z
     = get_new_client_order_id "HBOT" counter_nonce true ("ETH" ++ "-" ++ "BTC") 0%Z.
Proof.
  split; [split; reflexivity |].
  exact (order_id_ignores_later_fields "HBOT" Z counter_nonce true "ETH" "BTC" "PERP" 0%Z
           eq_refl eq_refl).
Defined.

Lemma length_append (a b : string) :
  String.length (a ++ b) = (String.length a + String.length b)%nat.
Proof.
  induction a as [|c a IH]; cbn [append String.length]; [reflexivity | now rewrite IH].
Qed.

Lemma length_slice_to n (s : string) :
  String.length (slice_to n s) = Nat.min n (String.length s).
Proof.
  revert s. induction n as [|n IH]; intros [|c r]; cbn [slice_to String.length Nat.min];
    try reflexivity.
  now rewrite IH.
Qed.

Lemma length_upper (s : string) : String.length (upper s) = String.length s.
Proof.
  unfold upper. induction s as [|c r IH]; cbn [map_chars String.length];
    [reflexivity | now rewrite IH].
Qed.

(** X7.  The length of an order id for ASCII asset codes: the broker
    prefix, the dash and the side letter, at most 4 + 1 characters of the
    base, at most 2 + 1 of the quote, and the numeral of the nonce; so the
    asset codes contribute between 4 and 8 characters however long they
    are. *)
Theorem order_id_length :
  forall (prefix : string) (NonceSource : Type)
         (get_tracking_nonce : NonceSource -> Z * NonceSource)
         (is_buy : bool) (base quote : string) (src : NonceSource),
    ascii_text base -> ascii_text quote ->
    base <> EmptyString -> dash_free base ->
    quote <> EmptyString -> dash_free quote ->
    exists id,
      fst (get_new_client_order_id prefix get_tracking_nonce is_buy (base ++ "-" ++ quote) src)
      = Ret id
      /\ String.length id
         = (String.length prefix + 2
            + (Nat.min 4 (String.length base) + 1)
            + (Nat.min 2 (String.length quote) + 1)
            + String.length (str_of_int (fst (get_tracking_nonce src))))%nat
      /\ (String.length prefix + 6 + String.length (str_of_int (fst (get_tracking_nonce src)))
          <= String.length id
          <= String.length prefix + 10
             + String.length (str_of_int (fst (get_tracking_nonce src))))%nat.
Proof.
  intros prefix NS get is_buy base quote src _ _ Hb Hbf Hq Hqf.
  destruct (split_base_quote base quote EmptyString Hbf Hqf (or_introl eq_refl))
    as [fields Hsplit].
  rewrite append_empty_r in Hsplit.
  unfold get_new_client_order_id.
  rewrite (order_id_stem_fields prefix is_buy _ base quote fields Hsplit).
  destruct (last_char_nonempty (upper base) (upper_nonempty base Hb)) as [bl ->].
  destruct (last_char_nonempty (upper quote) (upper_nonempty quote Hq)) as [ql ->].
  cbn [bind]. destruct (get src) as [n src']. cbn [fst].
  eexists. split; [reflexivity |].
  assert (String.length (if is_buy then "B" else "S") = 1%nat) as Hside
    by (destruct is_buy; reflexivity).
  assert (1 <= String.length base /\ 1 <= String.length quote)%nat as [H1 H2]
    by (destruct base, quote; cbn [String.length]; try congruence; lia).
  rewrite !length_append, !length_slice_to, !length_upper, Hside.
  cbn [String.length]. lia.
Qed.

Lemma order_id_length_eth_btc :
  (ascii_text "ETHEREUM" /\ ascii_text "USDT")
  /\ exists id,
    fst (get_new_client_order_id "HBOT" counter_nonce true ("ETHEREUM" ++ "-" ++ "USDT") 41%Z)
    = Ret id
    /\ String.length id
       = (String.length "HBOT" + 2
          + (Nat.min 4 (String.length "ETHEREUM") + 1)
          + (Nat.min 2 (String.length "USDT") + 1)
          + String.length (str_of_int (fst (counter_nonce 41%Z))))%nat
    /\ (String.length "HBOT" + 6 + String.length (str_of_int (fst (counter_nonce 41%Z)))
        <= String.length id
        <= String.length "HBOT" + 10
           + String.length (str_of_int (fst (counter_nonce 41%Z))))%nat.
Proof.
  split; [split; reflexivity |].
  apply (order_id_length "HBOT" Z counter_nonce true "ETHEREUM" "USDT" 41%Z);
    (discriminate || reflexivity).
Defined.

(** For alphabetic asset codes the call returns, draws one nonce, and the
    id read from its last letter onwards is the numeral of that nonce. *)
Lemma order_id_nonce_suffix prefix (NS : Type) (get : NS -> Z * NS) is_buy B Q src :
  alphabetic B -> alphabetic Q ->
  exists id,
    get_new_client_order_id prefix get is_buy (B ++ "-" ++ Q) src = (Ret id, snd (get src))
    /\ after_last_alpha id = str_of_int (fst (get src)).
Proof.
  intros HB HQ.
  destruct (order_id_stem_alphabetic prefix is_buy B Q HB HQ) as (body & l & E & Hl).
  unfold get_new_client_order_id. rewrite E.
  destruct (get src) as [n src']. cbn [fst snd].
  eexists. split; [reflexivity |].
  rewrite append_assoc. cbn [append].
  apply after_last_alpha_app; [exact Hl | apply str_of_int_no_alpha].
Qed.

(** X8.  The nonce can be read back from an order id: for a pair of
    non-empty alphabetic asset codes, the text after the last letter of the
    id is a decimal numeral whose value is the nonce that was drawn. *)
Theorem order_id_nonce_readback :
  forall (prefix : string) (NonceSource : Type)
         (get_tracking_nonce : NonceSource -> Z * NonceSource)
         (is_buy : bool) (B Q : string) (src : NonceSource),
    alphabetic B -> alphabetic Q ->
    exists id,
      fst (get_new_client_order_id prefix get_tracking_nonce is_buy (B ++ "-" ++ Q) src)
      = Ret id
      /\ option_map Z.of_int (NilZero.int_of_string (after_last_alpha id))
         = Some (fst (get_tracking_nonce src)).
Proof.
  intros prefix NS get is_buy B Q src HB HQ.
  destruct (order_id_nonce_suffix prefix NS get is_buy B Q src HB HQ) as (id & E & Hs).
  exists id. rewrite E, Hs. split; [reflexivity | apply str_of_int_parses].
Qed.

Lemma order_id_nonce_readback_eth_btc :
  exists id,
    fst (get_new_client_order_id "HBOT" counter_nonce false ("ETH" ++ "-" ++ "BTC") (-8)%Z)
    = Ret id
    /\ option_map Z.of_int (NilZero.int_of_string (after_last_alpha id))
       = Some (fst (counter_nonce (-8)%Z)).
Proof.
  apply (order_id_nonce_readback "HBOT" Z counter_nonce false "ETH" "BTC" (-8)%Z);
    (split; [discriminate | reflexivity]).
Defined.

Lemma increasing_after_requests (NS : Type) (get : NS -> Z * NS) :
  strictly_increasing get ->
  forall k src,
    (fst (get src) < fst (get (after_requests get k (snd (get src)))))%Z.
Proof.
  intros Hinc k. induction k as [|k IH]; intros src; cbn [after_requests].
  - apply Hinc.
  - unfold generate_request_id.
    apply Z.lt_trans with (fst (get (snd (get src)))); [apply Hinc | apply IH].
Qed.

(** X9.  With a strictly increasing nonce source, an order id differs from
    every order id generated later, however many request ids were generated
    in between and whatever the sides and the (alphabetic) pairs. *)
Theorem later_order_ids_differ :
  forall (prefix : string) (NonceSource : Type)
         (get_tracking_nonce : NonceSource -> Z * NonceSource)
         (is_buy1 is_buy2 : bool) (B1 Q1 B2 Q2 : string) (src : NonceSource) (k : nat),
    strictly_increasing get_tracking_nonce ->
    alphabetic B1 -> alphabetic Q1 -> alphabetic B2 -> alphabetic Q2 ->
    exists id1 id2,
      fst (get_new_client_order_id prefix get_tracking_nonce is_buy1 (B1 ++ "-" ++ Q1) src)
      = Ret id1
      /\ fst (get_new_client_order_id prefix get_tracking_nonce is_buy2 (B2 ++ "-" ++ Q2)
                (after_requests get_tracking_nonce k
                   (snd (get_new_client_order_id prefix get_tracking_nonce is_buy1
                           (B1 ++ "-" ++ Q1) src))))
         = Ret id2
      /\ id1 <> id2.
Proof.
  intros prefix NS get s1 s2 B1 Q1 B2 Q2 src k Hinc HB1 HQ1 HB2 HQ2.
  destruct (order_id_nonce_suffix prefix NS get s1 B1 Q1 src HB1 HQ1) as (id1 & E1 & S1).
  rewrite E1. cbn [fst snd].
  destruct (order_id_nonce_suffix prefix NS get s2 B2 Q2
              (after_requests get k (snd (get src))) HB2 HQ2) as (id2 & E2 & S2).
  rewrite E2. cbn [fst].
  exists id1, id2. split; [reflexivity |]. split; [reflexivity |].
  intros Heq. subst id2. rewrite S1 in S2. apply str_of_int_inj in S2.
  pose proof (increasing_after_requests NS get Hinc k src). lia.
Qed.

Lemma counter_nonce_increasing : strictly_increasing counter_nonce.
Proof.
  intros src. unfold counter_nonce. cbn [fst snd]. lia.
Qed.

Lemma later_order_ids_differ_counter :
  strictly_increasing counter_nonce
  /\ exists id1 id2,
       fst (get_new_client_order_id "HBOT" counter_nonce true ("ETH" ++ "-" ++ "BTC") 0%Z)
       = Ret id1
       /\ fst (get_new_client_order_id "HBOT" counter_nonce true ("ETH" ++ "-" ++ "BTC")
                 (after_requests counter_nonce 3
                    (snd (get_new_client_order_id "HBOT" counter_nonce true
                            ("ETH" ++ "-" ++ "BTC") 0%Z))))
          = Ret id2
       /\ id1 <> id2.
Proof.
  split; [exact counter_nonce_increasing |].
  apply (later_order_ids_differ "HBOT" Z counter_nonce true true "ETH" "BTC" "ETH" "BTC" 0%Z 3
           counter_nonce_increasing);
    (split; [discriminate | reflexivity]).
Defined.

Lemma order_id_stem_side prefix is_buy pair stem :
  order_id_stem prefix is_buy pair = Ret stem ->
  exists tail, stem = prefix ++ "-" ++ (if is_buy then "B" else "S") ++ tail.
Proof.
  unfold order_id_stem.
  destruct (list_index (split "-" pair) 0) as [base |]; cbn [bind]; [| discriminate].
  destruct (list_index (split "-" pair) 1) as [quote |]; cbn [bind]; [| discriminate].
  destruct (last_char (upper base)) as [bl |]; cbn [bind]; [| discriminate].
  destruct (last_char (upper quote)) as [ql |]; cbn [bind]; [| discriminate].
  intros [= <-]. eexists. reflexivity.
Qed.

(** X10.  A buy id and a sell id are never equal, whatever the pairs and
    whatever nonces are drawn: they differ in the letter after the prefix
    and the dash. *)
Theorem buy_and_sell_ids_differ :
  forall (prefix : string) (NonceSource : Type)
         (get_tracking_nonce : NonceSource -> Z * NonceSource)
         (pair1 pair2 : string) (src1 src2 : NonceSource) (id1 id2 : string),
    fst (get_new_client_order_id prefix get_tracking_nonce true pair1 src1) = Ret id1 ->
    fst (get_new_client_order_id prefix get_tracking_nonce false pair2 src2) = Ret id2 ->
    id1 <> id2.
Proof.
  intros prefix NS get pair1 pair2 src1 src2 id1 id2.
  unfold get_new_client_order_id.
  destruct (order_id_stem prefix true pair1) as [stem1 |] eqn:E1; [| discriminate].
  destruct (order_id_stem prefix false pair2) as [stem2 |] eqn:E2; [| discriminate].
  destruct (order_id_stem_side _ _ _ _ E1) as [t1 ->].
  destruct (order_id_stem_side _ _ _ _ E2) as [t2 ->].
  destruct (get src1) as [n1 s1]. destruct (get src2) as [n2 s2]. cbn [fst].
  intros [= <-] [= <-] Heq.
  rewrite !append_assoc in Heq. apply append_inv_head in Heq. discriminate Heq.
Qed.

Lemma buy_and_sell_ids_differ_same_nonce :
  fst (get_new_client_order_id "HBOT" counter_nonce true "ETH-BTC" 0%Z) = Ret "HBOT-BETHHBTC1"
  /\ fst (get_new_client_order_id "HBOT" counter_nonce false "ETH-BTC" 0%Z)
     = Ret "HBOT-SETHHBTC1"
  /\ "HBOT-BETHHBTC1" <> "HBOT-SETHHBTC1".
Proof.
  split; [reflexivity | split; [reflexivity |]].
  exact (buy_and_sell_ids_differ "HBOT" Z counter_nonce "ETH-BTC" "ETH-BTC" 0%Z 0%Z
           "HBOT-BETHHBTC1" "HBOT-SETHHBTC1" eq_refl eq_refl).
Defined.

(** ** Response normalizer *)

Lemma is_none_false (v : value) : v <> VNone -> is_none v = false.
Proof.
  destruct v; (congruence || reflexivity).
Qed.

Lemma failure_status (z : Z) :
  ~ In z [200; 201]%Z -> Z.eqb z 200 || Z.eqb z 201 = false.
Proof.
  intros H. apply not_true_is_false. intros E. apply H. now apply success_status_In.
Qed.

(** What handling a response does once the body decoded to [v]. *)
Lemma handle_decoded response v l :
  json response = Ret v ->
  handle_response response l
  = classify response
      {| http_status := Some (status response);
         parsed_response := v;
         request_errors := request_errors l |}.
Proof.
  intros Hjson. unfold handle_response, parse_body, seq, try_stmt, assign_from.
  rewrite Hjson. reflexivity.
Qed.

(** What handling a response does once decoding raised and the raw body
    was read. *)
Lemma handle_raw response e b l :
  json response = Raise e ->
  read response = Ret b ->
  handle_response response l
  = classify response
      {| http_status := Some (status response);
         parsed_response := VStr (diagnostic (str_of_bytes b));
         request_errors := true |}.
Proof.
  intros Hjson Hread.
  unfold handle_response, parse_body, read_raw_body, seq, try_stmt, assign_from, if_stmt, skip.
  rewrite Hjson, Hread. cbn [bind set_http_status set_request_errors set_parsed_response
    http_status parsed_response request_errors].
  unfold diagnostic. destruct (100 <? String.length (str_of_bytes b))%nat; reflexivity.
Qed.

Lemma aiohttp_response_raw request response e b :
  aenter request = Ret response ->
  json response = Raise e ->
  read response = Ret b ->
  aiohttp_response_with_errors request
  = Ret (Some (status response), VStr (diagnostic (str_of_bytes b)), true).
Proof.
  intros Henter Hjson Hread.
  unfold aiohttp_response_with_errors, try_stmt, async_with.
  rewrite Henter, (handle_raw response e b _ Hjson Hread).
  unfold classify, TempFailure, seq, assign_from.
  cbn [parsed_response is_none py_in bind].
  destruct (negb _); cbn [bind].
  - destruct (contains "error" (diagnostic (str_of_bytes b))); cbn [negb];
      destruct (aexit request None); reflexivity.
  - destruct (aexit request None); reflexivity.
Qed.

(** X11.  When the body cannot be decoded but its bytes can be read, the
    triple is the status, the text form of the bytes (cut to 100 characters
    and marked if longer) and errors set, whatever the status code - a 200
    included - and whatever leaving the request does. *)
Theorem undecodable_body_gives_raw_text :
  forall (request : RequestContext) (response : ClientResponse) (e : exn) (b : string),
    aenter request = Ret response ->
    json response = Raise e ->
    read response = Ret b ->
    aiohttp_response_with_errors request
    = Ret (Some (status response), VStr (diagnostic (str_of_bytes b)), true).
Proof.
  exact aiohttp_response_raw.
Qed.

Lemma undecodable_200_gives_raw_text :
  aiohttp_response_with_errors
    (completed {| status := 200; reason := Some "OK";
                  json := Raise (Fault "ContentTypeError"); read := Ret "<html>" |})
  = Ret (Some 200%Z, VStr "b'<html>'", true).
Proof.
  exact (undecodable_body_gives_raw_text
           (completed {| status := 200; reason := Some "OK";
                         json := Raise (Fault "ContentTypeError"); read := Ret "<html>" |})
           _ (Fault "ContentTypeError") "<html>" eq_refl eq_refl eq_refl).
Defined.

Lemma diagnostic_length (text : string) :
  (String.length (diagnostic text) <= 116)%nat
  /\ ((String.length text <= 100)%nat -> diagnostic text = text).
Proof.
  unfold diagnostic. destruct (Nat.ltb_spec 100 (String.length text)) as [Hlong | Hshort].
  - split; [| lia]. rewrite length_append, length_slice_to. cbn [String.length]. lia.
  - split; [lia | reflexivity].
Qed.

(** X12.  The text handed back for an undecodable body is never longer
    than 116 characters, and it is the whole text form of the bytes when
    that has at most 100 characters. *)
Theorem raw_text_is_bounded :
  forall (request : RequestContext) (response : ClientResponse) (e : exn) (b : string),
    aenter request = Ret response ->
    json response = Raise e ->
    read response = Ret b ->
    exists text,
      aiohttp_response_with_errors request = Ret (Some (status response), VStr text, true)
      /\ (String.length text <= 116)%nat
      /\ ((String.length (str_of_bytes b) <= 100)%nat -> text = str_of_bytes b).
Proof.
  intros request response e b Henter Hjson Hread.
  exists (diagnostic (str_of_bytes b)).
  split; [now apply (aiohttp_response_raw request response e b) | apply diagnostic_length].
Qed.

Lemma raw_text_is_bounded_example :
  exists text,
    aiohttp_response_with_errors
      (completed {| status := 502; reason := Some "Bad Gateway";
                    json := Raise (Fault "ContentTypeError"); read := Ret "<html>" |})
    = Ret (Some 502%Z, VStr text, true)
    /\ (String.length text <= 116)%nat
    /\ ((String.length (str_of_bytes "<html>") <= 100)%nat -> text = str_of_bytes "<html>").
Proof.
  exact (raw_text_is_bounded
           (completed {| status := 502; reason := Some "Bad Gateway";
                         json := Raise (Fault "ContentTypeError"); read := Ret "<html>" |})
           _ (Fault "ContentTypeError") "<html>" eq_refl eq_refl eq_refl).
Defined.

Lemma repr_byte_printable quote c :
  quote = single_quote \/ quote = double_quote ->
  all_chars printable (repr_byte quote c) = true.
Proof.
  intros [-> | ->]; destruct c as [[] [] [] [] [] [] [] []]; reflexivity.
Qed.

Lemma repr_body_printable quote (b : string) :
  quote = single_quote \/ quote = double_quote ->
  all_chars printable (repr_body quote b) = true.
Proof.
  intros Hq. induction b as [|c r IH]; cbn [repr_body]; [reflexivity |].
  now rewrite all_chars_app, (repr_byte_printable quote c Hq), IH.
Qed.

Lemma str_of_bytes_printable (b : string) : all_chars printable (str_of_bytes b) = true.
Proof.
  unfold str_of_bytes. cbv zeta.
  destruct (any_char (Ascii.eqb single_quote) b && negb (any_char (Ascii.eqb double_quote) b));
    cbn [all_chars]; rewrite all_chars_app, repr_body_printable by auto; reflexivity.
Qed.

Lemma slice_to_all p n (s : string) :
  all_chars p s = true -> all_chars p (slice_to n s) = true.
Proof.
  revert s. induction n as [|n IH]; intros [|c r]; cbn [slice_to all_chars]; auto.
  intros H. apply andb_true_iff in H as [Hc Hr]. now rewrite Hc, (IH r Hr).
Qed.

(** X13.  The text handed back for an undecodable body consists of
    printable ASCII characters only, whatever bytes the server sent. *)
Theorem raw_text_is_printable :
  forall (request : RequestContext) (response : ClientResponse) (e : exn) (b : string),
    aenter request = Ret response ->
    json response = Raise e ->
    read response = Ret b ->
    exists text,
      aiohttp_response_with_errors request = Ret (Some (status response), VStr text, true)
      /\ all_chars printable text = true.
Proof.
  intros request response e b Henter Hjson Hread.
  exists (diagnostic (str_of_bytes b)).
  split; [now apply (aiohttp_response_raw request response e b) |].
  unfold diagnostic. destruct (100 <? String.length (str_of_bytes b))%nat.
  - rewrite all_chars_app, (slice_to_all printable 100 _ (str_of_bytes_printable b)).
    reflexivity.
  - apply str_of_bytes_printable.
Qed.

Lemma raw_text_is_printable_example :
  exists text,
    aiohttp_response_with_errors
      (completed {| status := 502; reason := Some "Bad Gateway";
                    json := Raise (Fault "ContentTypeError");
                    read := Ret (String (ascii_of_nat 0) (String (ascii_of_nat 255) "'")) |})
    = Ret (Some 502%Z, VStr text, true)
    /\ all_chars printable text = true.
Proof.
  exact (raw_text_is_printable
           (completed {| status := 502; reason := Some "Bad Gateway";
                         json := Raise (Fault "ContentTypeError");
                         read := Ret (String (ascii_of_nat 0) (String (ascii_of_nat 255) "'")) |})
           _ (Fault "ContentTypeError") _ eq_refl eq_refl eq_refl).
Defined.

(** Classifying a decoded body that is not [None]. *)
Lemma classify_decoded response v errs :
  v <> VNone ->
  classify response
    {| http_status := Some (status response); parsed_response := v; request_errors := errs |}
  = if Z.eqb (status response) 200 || Z.eqb (status response) 201
    then ({| http_status := Some (status response); parsed_response := v;
             request_errors := errs |}, Ret tt)
    else match py_in "error" v with
         | Ret true =>
             ({| http_status := Some (status response); parsed_response := v;
                 request_errors := errs |}, Ret tt)
         | Ret false =>
             ({| http_status := Some (status response); parsed_response := v;
                 request_errors := true |}, Ret tt)
         | Raise e =>
             ({| http_status := Some (status response); parsed_response := v;
                 request_errors := errs |}, Raise e)
         end.
Proof.
  intros Hv. unfold classify, TempFailure, seq, assign_from.
  cbn [parsed_response]. rewrite (is_none_false v Hv).
  destruct (Z.eqb (status response) 200 || Z.eqb (status response) 201); cbn [negb];
    [reflexivity |].
  destruct (py_in "error" v) as [[|] | e]; reflexivity.
Qed.

Lemma aiohttp_decoded request response v :
  aenter request = Ret response ->
  json response = Ret v ->
  v <> VNone ->
  aiohttp_response_with_errors request
  = match
      try_stmt
        (fun l =>
           match classify response
                   {| http_status := Some (status response); parsed_response := v;
                      request_errors := false |} with
           | (l', Ret _) =>
               match aexit request None with
               | Ret _ => (l', Ret tt)
               | Raise e => (l', Raise e)
               end
           | (l', Raise e) =>
               match aexit request (Some e) with
               | Ret true => (l', Ret tt)
               | Ret false => (l', Raise e)
               | Raise e' => (l', Raise e')
               end
           end)
        (assign_from (fun _ => Ret true) set_request_errors)
        {| http_status := None; parsed_response := VNone; request_errors := false |}
    with
    | (l, Ret _) => Ret (http_status l, parsed_response l, request_errors l)
    | (_, Raise e) => Raise e
    end.
Proof.
  intros Henter Hjson Hv.
  unfold aiohttp_response_with_errors, try_stmt, async_with.
  rewrite Henter, (handle_decoded response v _ Hjson). reflexivity.
Qed.

(** X14.  With status 200 or 201 every decoded body other than [None] - an
    object, an array, a string, a number, a boolean - is handed back
    unchanged with errors clear, provided leaving the request does not
    raise; the [error] test is not even evaluated. *)
Theorem success_status_keeps_body :
  forall (request : RequestContext) (response : ClientResponse) (v : value) (b : bool),
    aenter request = Ret response ->
    aexit request None = Ret b ->
    json response = Ret v ->
    v <> VNone ->
    In (status response) [200; 201]%Z ->
    aiohttp_response_with_errors request = Ret (Some (status response), v, false).
Proof.
  intros request response v b Henter Hexit Hjson Hv Hst.
  rewrite (aiohttp_decoded request response v Henter Hjson Hv).
  unfold try_stmt. rewrite (classify_decoded response v false Hv).
  apply success_status_In in Hst. rewrite Hst, Hexit. reflexivity.
Qed.

Lemma success_status_keeps_number :
  aiohttp_response_with_errors
    (completed {| status := 201; reason := Some "Created";
                  json := Ret (VInt 7); read := Ret "7" |})
  = Ret (Some 201%Z, VInt 7, false).
Proof.
  apply (success_status_keeps_body
           (completed {| status := 201; reason := Some "Created";
                         json := Ret (VInt 7); read := Ret "7" |})
           _ (VInt 7) false eq_refl eq_refl eq_refl).
  - discriminate.
  - right. left. reflexivity.
Defined.

(** X15.  With any other status and a decoded body on which the [error]
    membership test is defined - key of an object, element of an array,
    substring of a string - errors is set exactly when [error] is not found,
    and the body is handed back unchanged. *)
Theorem failure_status_tests_membership :
  forall (request : RequestContext) (response : ClientResponse) (v : value)
         (found b : bool),
    aenter request = Ret response ->
    aexit request None = Ret b ->
    json response = Ret v ->
    py_in "error" v = Ret found ->
    ~ In (status response) [200; 201]%Z ->
    aiohttp_response_with_errors request = Ret (Some (status response), v, negb found).
Proof.
  intros request response v found b Henter Hexit Hjson Hin Hst.
  assert (v <> VNone) as Hv by (intros ->; discriminate Hin).
  rewrite (aiohttp_decoded request response v Henter Hjson Hv).
  unfold try_stmt. rewrite (classify_decoded response v false Hv).
  rewrite (failure_status _ Hst), Hin.
  destruct found; rewrite Hexit; reflexivity.
Qed.

Lemma failure_status_string_body :
  aiohttp_response_with_errors
    (completed {| status := 500; reason := Some "Internal Server Error";
                  json := Ret (VStr "internal error"); read := Ret "x" |})
  = Ret (Some 500%Z, VStr "internal error", negb true).
Proof.
  apply (failure_status_tests_membership
           (completed {| status := 500; reason := Some "Internal Server Error";
                         json := Ret (VStr "internal error"); read := Ret "x" |})
           _ (VStr "internal error") true false eq_refl eq_refl eq_refl eq_refl).
  cbn [In]. intros [H | [H | []]]; discriminate H.
Defined.

(** X16.  With a status other than 200 and 201 and a decoded body on which
    the membership test raises (a number or a boolean), the exception is
    absorbed: the triple is the status, the body and errors set, as long as
    the request's context manager does not swallow the exception. *)
Theorem failure_status_scalar_body :
  forall (request : RequestContext) (response : ClientResponse) (v : value) (e : exn),
    aenter request = Ret response ->
    json response = Ret v ->
    v <> VNone ->
    py_in "error" v = Raise e ->
    ~ In (status response) [200; 201]%Z ->
    aexit request (Some e) <> Ret true ->
    aiohttp_response_with_errors request = Ret (Some (status response), v, true).
Proof.
  intros request response v e Henter Hjson Hv Hin Hst Hns.
  rewrite (aiohttp_decoded request response v Henter Hjson Hv).
  unfold try_stmt. rewrite (classify_decoded response v false Hv).
  rewrite (failure_status _ Hst), Hin.
  destruct (aexit request (Some e)) as [[|] | e']; [congruence | reflexivity | reflexivity].
Qed.

Lemma failure_status_number_body :
  aiohttp_response_with_errors
    (completed {| status := 503; reason := Some "Service Unavailable";
                  json := Ret (VInt 0); read := Ret "0" |})
  = Ret (Some 503%Z, VInt 0, true).
Proof.
  apply (failure_status_scalar_body
           (completed {| status := 503; reason := Some "Service Unavailable";
                         json := Ret (VInt 0); read := Ret "0" |})
           _ (VInt 0) TypeError eq_refl eq_refl).
  - discriminate.
  - reflexivity.
  - cbn [In]. intros [H | [H | []]]; discriminate H.
  - discriminate.
Defined.

(** X17.  A fault while leaving the request marks the call as failed but
    loses nothing: with status 200 or 201 and a decoded body, the triple
    still carries the status and the body, with errors set. *)
Theorem fault_on_exit_sets_errors :
  forall (request : RequestContext) (response : ClientResponse) (v : value) (e : exn),
    aenter request = Ret response ->
    aexit request None = Raise e ->
    json response = Ret v ->
    v <> VNone ->
    In (status response) [200; 201]%Z ->
    aiohttp_response_with_errors request = Ret (Some (status response), v, true).
Proof.
  intros request response v e Henter Hexit Hjson Hv Hst.
  rewrite (aiohttp_decoded request response v Henter Hjson Hv).
  unfold try_stmt. rewrite (classify_decoded response v false Hv).
  apply success_status_In in Hst. rewrite Hst, Hexit. reflexivity.
Qed.

Lemma fault_on_exit_example :
  aiohttp_response_with_errors
    {| aenter := Ret {| status := 200; reason := Some "OK";
                        json := Ret (VDict [("result", VInt 1)]); read := Ret "{}" |};
       aexit := fun _ => Raise (Fault "ClientConnectionError") |}
  = Ret (Some 200%Z, VDict [("result", VInt 1)], true).
Proof.
  apply (fault_on_exit_sets_errors
           {| aenter := Ret {| status := 200; reason := Some "OK";
                               json := Ret (VDict [("result", VInt 1)]); read := Ret "{}" |};
              aexit := fun _ => Raise (Fault "ClientConnectionError") |}
           _ (VDict [("result", VInt 1)]) (Fault "ClientConnectionError")
           eq_refl eq_refl eq_refl).
  - discriminate.
  - left. reflexivity.
Defined.

(** X18.  What a clear errors flag guarantees, for a context manager that
    never swallows exceptions: a response was obtained and its status is
    the one returned, the body returned is the decoded body and is not
    [None], the status is 200 or 201 or the body contains [error], and
    leaving the request did not raise. *)
Theorem clear_errors_flag_means_decoded_body :
  forall (request : RequestContext) (http_status : option Z) (body : value),
    never_swallows request ->
    aiohttp_response_with_errors request = Ret (http_status, body, false) ->
    exists response,
      aenter request = Ret response
      /\ http_status = Some (status response)
      /\ json response = Ret body
      /\ body <> VNone
      /\ (In (status response) [200; 201]%Z \/ py_in "error" body = Ret true)
      /\ exists b, aexit request None = Ret b.
Proof.
  intros request st body Hns H.
  destruct (aenter request) as [response | e0] eqn:Henter.
  - exists response. split; [reflexivity |].
    destruct (json response) as [v | e1] eqn:Hjson.
    + assert (v = VNone \/ v <> VNone) as [-> | Hv]
        by (destruct v; [left; reflexivity | right; discriminate ..]).
      * exfalso. revert H.
        unfold aiohttp_response_with_errors, try_stmt, async_with.
        rewrite Henter, (handle_decoded response VNone _ Hjson).
        unfold classify, TempFailure, seq, assign_from. cbn.
        destruct (aexit request None); cbn; congruence.
      * rewrite (aiohttp_decoded request response v Henter Hjson Hv) in H.
        unfold try_stmt in H. rewrite (classify_decoded response v false Hv) in H.
        destruct (Z.eqb (status response) 200 || Z.eqb (status response) 201) eqn:Est.
        -- destruct (aexit request None) as [bx | ex] eqn:Hexit; cbn in H; [| congruence].
           injection H as <- <-.
           repeat split; try assumption; try reflexivity.
           ++ left. now apply success_status_In.
           ++ now exists bx.
        -- destruct (py_in "error" v) as [[|] | e] eqn:Ein.
           ++ destruct (aexit request None) as [bx | ex] eqn:Hexit; cbn in H; [| congruence].
              injection H as <- <-.
              repeat split; try assumption; try reflexivity.
              ** right. exact Ein.
              ** now exists bx.
           ++ destruct (aexit request None); cbn in H; congruence.
           ++ pose proof (Hns e) as Hne.
              destruct (aexit request (Some e)) as [[|] | ex]; cbn in H; congruence.
    + exfalso. destruct (read response) as [b | e2] eqn:Hread.
      * rewrite (aiohttp_response_raw request response e1 b Henter Hjson Hread) in H.
        congruence.
      * revert H. unfold aiohttp_response_with_errors, try_stmt, async_with.
        rewrite Henter.
        unfold handle_response, parse_body, classify, seq, try_stmt, assign_from,
          read_raw_body, try_stmt, seq, assign_from, TempFailure.
        rewrite Hjson, Hread. cbn.
        destruct (aexit request None); cbn; congruence.
  - exfalso. revert H. unfold aiohttp_response_with_errors, try_stmt, async_with.
    rewrite Henter. cbn. congruence.
Qed.

Lemma clear_errors_flag_example :
  never_swallows
    (completed {| status := 200; reason := Some "OK";
                  json := Ret (VDict [("result", VInt 1)]); read := Ret "{}" |})
  /\ exists response,
       aenter (completed {| status := 200; reason := Some "OK";
                            json := Ret (VDict [("result", VInt 1)]); read := Ret "{}" |})
       = Ret response
       /\ Some 200%Z = Some (status response)
       /\ json response = Ret (VDict [("result", VInt 1)])
       /\ VDict [("result", VInt 1)] <> VNone
       /\ (In (status response) [200; 201]%Z
           \/ py_in "error" (VDict [("result", VInt 1)]) = Ret true)
       /\ exists b,
            aexit (completed {| status := 200; reason := Some "OK";
                                json := Ret (VDict [("result", VInt 1)]);
                                read := Ret "{}" |}) None
            = Ret b.
Proof.
  assert (never_swallows
            (completed {| status := 200; reason := Some "OK";
                          json := Ret (VDict [("result", VInt 1)]); read := Ret "{}" |}))
    as Hns by (intros e; discriminate).
  split; [exact Hns |].
  exact (clear_errors_flag_means_decoded_body _ (Some 200%Z) (VDict [("result", VInt 1)])
           Hns eq_refl).
Defined.

(* ===================================================================== *)
(** * The response normalizer and signals *)
(* ===================================================================== *)

(** ** The two models agree where no signal is delivered *)

Lemma agrees_skip : agrees Task.skip skip.
Proof. intros l. reflexivity. Qed.

Lemma agrees_seq t1 t2 s1 s2 :
  agrees t1 s1 -> agrees t2 s2 -> agrees (Task.seq t1 t2) (s1 ;;; s2).
Proof.
  intros H1 H2 l. unfold Task.seq, seq. rewrite (H1 l).
  destruct (s1 l) as [l' [u | e]]; cbn [fst snd Task.of_exc]; [apply H2 | reflexivity].
Qed.

Lemma agrees_try t1 t2 s1 s2 :
  agrees t1 s1 -> agrees t2 s2 -> agrees (Task.try_stmt t1 t2) (try_stmt s1 s2).
Proof.
  intros H1 H2 l. unfold Task.try_stmt, try_stmt. rewrite (H1 l).
  destruct (s1 l) as [l' [u | e]]; cbn [fst snd Task.of_exc]; [reflexivity | apply H2].
Qed.

Lemma agrees_if c t1 t2 s1 s2 :
  agrees t1 s1 -> agrees t2 s2 -> agrees (Task.if_stmt c t1 t2) (if_stmt c s1 s2).
Proof.
  intros H1 H2 l. unfold Task.if_stmt, if_stmt. destruct (c l); [apply H1 | apply H2].
Qed.

Lemma agrees_assign {A : Type} (te : Locals -> Task.result A) (e : Locals -> exc A) set :
  (forall l, te l = Task.of_exc (e l)) ->
  agrees (Task.assign_from te set) (assign_from e set).
Proof.
  intros H l. unfold Task.assign_from, assign_from. rewrite (H l).
  destruct (e l); reflexivity.
Qed.

Lemma agrees_read_raw_body response :
  agrees (Task.read_raw_body (task_response response)) (read_raw_body response).
Proof.
  unfold Task.read_raw_body, read_raw_body.
  apply agrees_try; [| apply agrees_skip].
  apply agrees_seq.
  - apply agrees_assign. intros _. cbn [task_response Task.read].
    destruct (read response); reflexivity.
  - apply agrees_if; [| apply agrees_skip].
    apply agrees_assign. intros l. destruct (parsed_response l); reflexivity.
Qed.

Lemma agrees_parse_body response :
  agrees (Task.parse_body (task_response response)) (parse_body response).
Proof.
  unfold Task.parse_body, parse_body.
  apply agrees_try.
  - apply agrees_assign. intros _. reflexivity.
  - apply agrees_seq; [| apply agrees_read_raw_body].
    apply agrees_assign. intros _. reflexivity.
Qed.

Lemma agrees_classify response :
  agrees (Task.classify (task_response response)) (classify response).
Proof.
  intros l. unfold Task.classify, classify, Task.TempFailure, TempFailure.
  cbn [task_response Task.status Task.reason].
  destruct (is_none (parsed_response l)) eqn:En.
  - unfold Task.seq, seq, Task.assign_from, assign_from. reflexivity.
  - destruct (negb _); [| reflexivity].
    destruct (py_in "error" (parsed_response l)) as [[|] | e]; cbn [bind negb];
      reflexivity.
Qed.

Lemma agrees_handle_response response :
  agrees (Task.handle_response (task_response response)) (handle_response response).
Proof.
  unfold Task.handle_response, handle_response.
  apply agrees_seq; [apply agrees_assign; intros _; reflexivity |].
  apply agrees_seq; [apply agrees_parse_body | apply agrees_classify].
Qed.

Lemma agrees_async_with request :
  agrees (Task.async_with (task_request request) Task.handle_response)
         (async_with request handle_response).
Proof.
  intros l. unfold Task.async_with, async_with.
  cbn [task_request Task.aenter Task.aexit].
  destruct (aenter request) as [response | e0]; [| reflexivity].
  rewrite (agrees_handle_response response l).
  destruct (handle_response response l) as [l' [u | e]]; cbn [fst snd Task.of_exc].
  - destruct (aexit request None); reflexivity.
  - destruct (aexit request (Some e)) as [[|] | e']; reflexivity.
Qed.

(** On a request whose awaits return or raise instances of [Exception],
    the routine under signals does what [aiohttp_response_with_errors]
    does. *)
Lemma task_model_agrees (request : RequestContext) :
  Task.aiohttp_response_with_errors (task_request request)
  = Task.of_exc (aiohttp_response_with_errors request).
Proof.
  unfold Task.aiohttp_response_with_errors, aiohttp_response_with_errors.
  pose proof (agrees_try _ _ _ _ (agrees_async_with request)
                (agrees_assign (fun _ => Task.Returns true) (fun _ => Ret true)
                   set_request_errors (fun _ => eq_refl))) as H.
  rewrite H.
  destruct (try_stmt _ _ _) as [l [u | e]]; reflexivity.
Qed.

(** ** Statements that keep the status and raise no signal *)












(* ===================================================================== *)
(** * Date utility *)
(* ===================================================================== *)

Local Open Scope Z_scope.

Example ex_epoch_ordinal : epoch_ordinal = 719163.
Proof. reflexivity. Qed.

Example ex_parse_iso :
  parse_iso_utc "2021-01-01T00:00:00Z" = Ret new_year_2021
  /\ parse_iso_utc "not a date" = Raise (Fault "ParserError").
Proof. split; reflexivity. Qed.

(** The [float] [0.1] is [0x1.999999999999ap-4]; [0.5] and [3.0] are exact;
    [2 ** 53 + 1] rounds to even. *)
Example ex_float_of_ratio :
  float_of_ratio 1 10 = {| mantissa := 7205759403792794; exponent := -56 |}
  /\ float_of_ratio 1 2 = {| mantissa := 2 ^ 52; exponent := -53 |}
  /\ float_of_ratio (-3) 1 = {| mantissa := - (3 * 2 ^ 51); exponent := -51 |}
  /\ int_of_float (float_of_ratio (2 ^ 53 + 1) 1) = 2 ^ 53
  /\ int_of_float (float_of_ratio (-7) 2) = -3.
Proof. repeat split. Qed.

(** Beyond the year 2514 the spacing of binary64 numbers exceeds a
    microsecond: the timestamp of 3000-01-01T00:00:00.999999Z rounds up to
    the next whole second before it is truncated. *)
Example ex_year_3000 :
  str_date_to_ts (fun _ => Ret year_3000) (fun _ => Ret 0) "3000-01-01T00:00:00.999999Z"
  = Ret 32503680001
  /\ Z.quot (epoch_microseconds year_3000 0) 1000000 = 32503680000.
Proof. split; reflexivity. Qed.

(** ** Rounding to binary64 and truncating *)







(** ** [str_date_to_ts] *)



(** A naive instant goes through the host's local-time conversion; its
    failure propagates, and so does the [TypeError] for a [tzinfo] without
    an offset. *)
Example ex_naive_and_failures :
  str_date_to_ts
    (fun _ => Ret {| year := 2021; month := 1; day := 1; hour := 0; minute := 0;
                     second := 0; microsecond := 500000; tz := Naive |})
    (fun _ => Ret 1609459200) "2021-01-01 00:00:00.5"
  = Ret 1609459200
  /\ str_date_to_ts
       (fun _ => Ret {| year := 1; month := 1; day := 1; hour := 0; minute := 0;
                        second := 0; microsecond := 0; tz := Naive |})
       (fun _ => Raise (Fault "OverflowError")) "0001-01-01"
     = Raise (Fault "OverflowError")
  /\ str_date_to_ts
       (fun _ => Ret {| year := 2021; month := 1; day := 1; hour := 0; minute := 0;
                        second := 0; microsecond := 0; tz := NoOffset |})
       (fun _ => Ret 0) "2021-01-01"
     = Raise TypeError.
Proof. repeat split. Qed.

(** ** The exponent and the mantissa are those of binary64 *)

(** [floor_log2_ratio a d] is the binary exponent of [a / d]:
    [2 ^ k <= a / d < 2 ^ (k + 1)], written without fractions. *)
Lemma floor_log2_ratio_spec a d :
  0 < a -> 0 < d ->
  d * 2 ^ Z.max 0 (floor_log2_ratio a d)
  <= a * 2 ^ Z.max 0 (- floor_log2_ratio a d)
  < 2 * (d * 2 ^ Z.max 0 (floor_log2_ratio a d)).
Proof.
  intros Ha Hd.
  destruct (Z.log2_spec a Ha) as [Hla Hla'].
  destruct (Z.log2_spec d Hd) as [Hld Hld'].
  pose proof (Z.log2_nonneg a) as Hna. pose proof (Z.log2_nonneg d) as Hnd.
  rewrite Z.pow_succ_r in Hla', Hld' by lia.
  unfold floor_log2_ratio.
  set (la := Z.log2 a) in *. set (ld := Z.log2 d) in *.
  assert (0 < 2 ^ la) as Pla by (apply Z.pow_pos_nonneg; lia).
  assert (0 < 2 ^ ld) as Pld by (apply Z.pow_pos_nonneg; lia).
  destruct (Z.leb_spec 0 (la - ld)) as [He | He].
  - assert (2 ^ la = 2 ^ ld * 2 ^ (la - ld)) as Hpow
      by (rewrite <- Z.pow_add_r by lia; f_equal; lia).
    assert (0 < 2 ^ (la - ld)) as Pe by (apply Z.pow_pos_nonneg; lia).
    destruct (Z.leb_spec (d * 2 ^ (la - ld)) a) as [Ht | Ht].
    + rewrite Z.max_r, Z.max_l by lia. rewrite Z.pow_0_r. nia.
    + destruct (Z.eq_dec (la - ld) 0) as [E0 | E0].
      * rewrite E0 in *.
        change (Z.max 0 (0 - 1)) with 0. change (Z.max 0 (- (0 - 1))) with 1.
        rewrite ?Z.pow_0_r, ?Z.pow_1_r in *. lia.
      * rewrite Z.max_r, Z.max_l by lia. rewrite Z.pow_0_r.
        assert (2 ^ (la - ld) = 2 * 2 ^ (la - ld - 1)) as Hhalf
          by (rewrite <- Z.pow_succ_r by lia; f_equal; lia).
        assert (0 < 2 ^ (la - ld - 1)) by (apply Z.pow_pos_nonneg; lia).
        nia.
  - assert (2 ^ ld = 2 ^ la * 2 ^ (- (la - ld))) as Hpow
      by (rewrite <- Z.pow_add_r by lia; f_equal; lia).
    assert (0 < 2 ^ (- (la - ld))) as Pe by (apply Z.pow_pos_nonneg; lia).
    destruct (Z.leb_spec d (a * 2 ^ (- (la - ld)))) as [Ht | Ht].
    + rewrite Z.max_l, Z.max_r by lia. rewrite Z.pow_0_r. nia.
    + rewrite Z.max_l, Z.max_r by lia. rewrite Z.pow_0_r.
      replace (- (la - ld - 1)) with (Z.succ (- (la - ld))) by lia.
      rewrite Z.pow_succ_r by lia. nia.
Qed.

Lemma round_half_even_nearest n d :
  0 <= n -> 0 < d ->
  2 * Z.abs (round_half_even n d * d - n) <= d
  /\ n / d <= round_half_even n d <= n / d + 1.
Proof.
  intros Hn Hd.
  pose proof (Z.div_mod n d ltac:(lia)) as Hdm.
  pose proof (Z.mod_pos_bound n d Hd) as Hr.
  unfold round_half_even.
  set (q := n / d) in *. set (r := n mod d) in *.
  destruct (Z.ltb_spec (2 * r) d) as [H1 | H1];
    [| destruct (Z.ltb_spec d (2 * r)) as [H2 | H2]; [| destruct (Z.even q)]];
    split; nia.
Qed.

(** The mantissa of the binary64 number for a positive [a / d] has 53 bits
    (or is [2 ^ 53], after a carry), and it is an integer nearest to
    [a / d] divided by [2 ^ exponent]. *)
Lemma float_of_ratio_nearest a d :
  0 < a -> 0 < d ->
  let x := float_of_ratio a d in
  2 ^ 52 <= mantissa x <= 2 ^ 53
  /\ 2 * Z.abs (mantissa x * (d * 2 ^ Z.max 0 (exponent x))
                - a * 2 ^ Z.max 0 (- exponent x))
     <= d * 2 ^ Z.max 0 (exponent x).
Proof.
  intros Ha Hd. cbv zeta. unfold float_of_ratio.
  destruct (Z.eqb_spec a 0) as [-> | _]; [lia |].
  rewrite (Z.abs_eq a) by lia. rewrite (Z.sgn_pos a) by lia.
  pose proof (floor_log2_ratio_spec a d Ha Hd) as Hspec.
  set (k := floor_log2_ratio a d) in *. cbn [mantissa exponent].
  rewrite !Z.mul_1_l.
  destruct (Z.leb_spec 0 (k - 52)) as [He | He].
  - rewrite (Z.max_r 0 (k - 52)), (Z.max_l 0 (- (k - 52))) by lia.
    rewrite Z.max_r, Z.max_l in Hspec by lia.
    rewrite Z.pow_0_r, Z.mul_1_r in *.
    assert (2 ^ k = 2 ^ (k - 52) * 2 ^ 52) as Hk
      by (rewrite <- Z.pow_add_r by lia; f_equal; lia).
    assert (0 < 2 ^ (k - 52)) as Pe by (apply Z.pow_pos_nonneg; lia).
    set (D := d * 2 ^ (k - 52)) in *.
    assert (0 < D) as HD by (unfold D; nia).
    assert (D * 2 ^ 52 <= a < D * 2 ^ 53) as Hrange by (unfold D; rewrite Hk in Hspec; lia).
    destruct (round_half_even_nearest a D ltac:(lia) HD) as [Hnear [Hlo Hhi]].
    assert (2 ^ 52 <= a / D) by (apply Z.div_le_lower_bound; lia).
    assert (a / D < 2 ^ 53) by (apply Z.div_lt_upper_bound; lia).
    split; [lia | exact Hnear].
  - rewrite (Z.max_l 0 (k - 52)), (Z.max_r 0 (- (k - 52))) by lia.
    rewrite Z.pow_0_r, Z.mul_1_r.
    assert (0 < 2 ^ (- (k - 52))) as Pe by (apply Z.pow_pos_nonneg; lia).
    set (N := a * 2 ^ (- (k - 52))) in *.
    assert (d * 2 ^ 52 <= N < d * 2 ^ 53) as Hrange.
    { unfold N. destruct (Z.leb_spec 0 k) as [Hk | Hk].
      - rewrite Z.max_r, Z.max_l in Hspec by lia. rewrite Z.pow_0_r, Z.mul_1_r in Hspec.
        assert (2 ^ 52 = 2 ^ k * 2 ^ (- (k - 52))) as Hp
          by (rewrite <- Z.pow_add_r by lia; f_equal; lia).
        assert (0 < 2 ^ k) by (apply Z.pow_pos_nonneg; lia).
        change (2 ^ 53) with (2 * 2 ^ 52). rewrite Hp. nia.
      - rewrite Z.max_l, Z.max_r in Hspec by lia. rewrite Z.pow_0_r, Z.mul_1_r in Hspec.
        assert (2 ^ (- (k - 52)) = 2 ^ (- k) * 2 ^ 52) as Hp
          by (rewrite <- Z.pow_add_r by lia; f_equal; lia).
        assert (0 < 2 ^ (- k)) by (apply Z.pow_pos_nonneg; lia).
        change (2 ^ 53) with (2 * 2 ^ 52). rewrite Hp. nia. }
    assert (0 <= N) as HN by (unfold N; nia).
    destruct (round_half_even_nearest N d HN Hd) as [Hnear [Hlo Hhi]].
    assert (2 ^ 52 <= N / d) by (apply Z.div_le_lower_bound; lia).
    assert (N / d < 2 ^ 53) by (apply Z.div_lt_upper_bound; lia).
    split; [lia | exact Hnear].
Qed.
